(** * SignCTRL: the rank/failover state machine and its message loop

    A shallow embedding of [types/signctrled.go] (the [BaseSignCtrled] state
    machine) and of the main loop [run] of [privval/sc_file.go], followed by
    the properties of both that the specification states.

    Conventions.
    - Go's [int] (64 bits on the targets SignCTRL is built for) and [int64]
      are integers of [Z] with the two's-complement wrap-around of [++] and
      [--] written out ([GoInt.wrap]).
    - A method with a pointer receiver is a computation in the monad [M]:
      it reads and updates the receiver and appends to a trace.  The trace is
      ghost data: it records every method entry and every call on the logger,
      so that "this call invoked [Promote] once" is a statement about it.
    - Go's [error] is [option Err]; [nil] is [None].  The three sentinel
      errors are compared by identity in the source, hence constructors. *)

From Stdlib Require Import ZArith List String Bool Lia.
Import ListNotations.
Local Open Scope Z_scope.

(** ** Machine integers *)

Module GoInt.

Definition min_int : Z := - 2 ^ 63.
Definition max_int : Z := 2 ^ 63 - 1.

(** The value a 64-bit signed register holds after an arithmetic result [z]. *)
Definition wrap (z : Z) : Z := (z + 2 ^ 63) mod 2 ^ 64 - 2 ^ 63.

Definition in_range (z : Z) : Prop := min_int <= z <= max_int.

End GoInt.

(** ** Errors *)

(** [ErrThresholdExceeded], [ErrMustShutdown] and [ErrCounterLocked] are the
    package-level values of [signctrled.go]; [ErrOther] stands for any other
    error value (one made by [fmt.Errorf], say), which is identical to none
    of the three. *)
Inductive Err : Type :=
| ErrThresholdExceeded
| ErrMustShutdown
| ErrCounterLocked
| ErrOther (msg : string).

Definition error : Type := option Err.

Definition Err_eqb (a b : Err) : bool :=
  match a, b with
  | ErrThresholdExceeded, ErrThresholdExceeded => true
  | ErrMustShutdown, ErrMustShutdown => true
  | ErrCounterLocked, ErrCounterLocked => true
  | ErrOther x, ErrOther y => String.eqb x y
  | _, _ => false
  end.


(** ** Traces *)

Inductive Method : Type :=
| MLockCounter | MUnlockCounter
| MMissed | MOnMissedTooMany | MReset | MPromote | MOnPromote.

Inductive Event : Type :=
| Enter (m : Method)
| LogInfo (format : string) (args : list Z)
| LogDebug (format : string) (args : list Z).

Definition isEnter (m : Method) (e : Event) : bool :=
  match e, m with
  | Enter MLockCounter, MLockCounter
  | Enter MUnlockCounter, MUnlockCounter
  | Enter MMissed, MMissed
  | Enter MOnMissedTooMany, MOnMissedTooMany
  | Enter MReset, MReset
  | Enter MPromote, MPromote
  | Enter MOnPromote, MOnPromote => true
  | _, _ => false
  end.

(** How many times the trace [t] enters method [m]. *)
Definition invocations (m : Method) (t : list Event) : nat :=
  List.length (filter (isEnter m) t).

(** ** The [SignCtrled] interface and interface values *)

(** A computation over a receiver of type [T]: result, receiver afterwards,
    trace. *)
Definition Eff (T A : Type) : Type := T -> A * T * list Event.

Class SignCtrled (T : Type) : Type := {
  sc_Missed : Eff T error;
  sc_OnMissedTooMany : Eff T unit;
  sc_Reset : Eff T unit;
  sc_Promote : Eff T error;
  sc_OnPromote : Eff T unit
}.

(** A non-nil value of interface type [SignCtrled]: a dynamic type, a value
    of it and its method set. *)
Record SignCtrledValue : Type := {
  dyn_type : Type;
  dyn_value : dyn_type;
  dyn_methods : SignCtrled dyn_type
}.

(** ** [BaseSignCtrled] *)

(** [*SyncLogger]: the discarding logger that [NewBaseSignCtrled] makes with
    [NewSyncLogger] when it is given [nil], or one the caller supplied. *)
Inductive SyncLogger : Type :=
| DiscardLogger
| UserLogger (id : nat).

Record BaseSignCtrled : Type := mkBaseSignCtrled {
  Logger : SyncLogger;
  counterLocked : bool;
  currentHeight : Z;
  missedInARow : Z;
  threshold : Z;
  rank : Z;
  impl : option SignCtrledValue
}.

Definition set_counterLocked (b : bool) (s : BaseSignCtrled) : BaseSignCtrled :=
  mkBaseSignCtrled (Logger s) b (currentHeight s) (missedInARow s)
                   (threshold s) (rank s) (impl s).

Definition set_currentHeight (h : Z) (s : BaseSignCtrled) : BaseSignCtrled :=
  mkBaseSignCtrled (Logger s) (counterLocked s) h (missedInARow s)
                   (threshold s) (rank s) (impl s).

Definition set_missedInARow (m : Z) (s : BaseSignCtrled) : BaseSignCtrled :=
  mkBaseSignCtrled (Logger s) (counterLocked s) (currentHeight s) m
                   (threshold s) (rank s) (impl s).

Definition set_rank (r : Z) (s : BaseSignCtrled) : BaseSignCtrled :=
  mkBaseSignCtrled (Logger s) (counterLocked s) (currentHeight s)
                   (missedInARow s) (threshold s) r (impl s).

Definition set_impl (i : option SignCtrledValue) (s : BaseSignCtrled)
  : BaseSignCtrled :=
  mkBaseSignCtrled (Logger s) (counterLocked s) (currentHeight s)
                   (missedInARow s) (threshold s) (rank s) i.

(** *** The monad of methods on [*BaseSignCtrled] *)

Definition M (A : Type) : Type := Eff BaseSignCtrled A.

Definition ret {A} (a : A) : M A := fun s => (a, s, []).

Definition bind {A B} (c : M A) (k : A -> M B) : M B :=
  fun s =>
    let '(a, s1, t1) := c s in
    let '(b, s2, t2) := k a s1 in
    (b, s2, t1 ++ t2).

Definition get : M BaseSignCtrled := fun s => (s, s, []).
Definition modify (f : BaseSignCtrled -> BaseSignCtrled) : M unit :=
  fun s => (tt, f s, []).
Definition emit (e : Event) : M unit := fun s => (tt, s, [e]).

Declare Scope go_scope.
Delimit Scope go_scope with go.
Notation "x <- c ;; k" := (bind c (fun x => k))
  (at level 61, c at next level, right associativity) : go_scope.
Notation "c ;; k" := (bind c (fun _ => k))
  (at level 61, right associativity) : go_scope.
Local Open Scope go_scope.

Definition result {A} (r : A * BaseSignCtrled * list Event) : A := fst (fst r).
Definition after {A} (r : A * BaseSignCtrled * list Event) : BaseSignCtrled :=
  snd (fst r).
Definition trace {A} (r : A * BaseSignCtrled * list Event) : list Event := snd r.


(** [bsc.Logger.Info(format, args...)] and [bsc.Logger.Debug(...)]. *)
Definition Logger_Info (format : string) (args : list Z) : M unit :=
  emit (LogInfo format args).
Definition Logger_Debug (format : string) (args : list Z) : M unit :=
  emit (LogDebug format args).

(** *** Constructor and methods, in the order of the source *)

Definition NewBaseSignCtrled (logger : option SyncLogger) (threshold rank : Z)
           (impl : option SignCtrledValue) : BaseSignCtrled :=
  let logger := match logger with
                | None => DiscardLogger
                | Some l => l
                end in
  {| Logger := logger;
     counterLocked := true;
     currentHeight := 1;
     missedInARow := 0;
     threshold := threshold;
     rank := rank;
     impl := impl |}.

Definition LockCounter : M unit :=
  emit (Enter MLockCounter) ;;
  bsc <- get ;;
  if negb (counterLocked bsc) then
    Logger_Info "Looking for first commitsig from validator after reconnect, stop counting missed blocks in a row..." [] ;;
    modify (set_counterLocked true)
  else ret tt.

Definition UnlockCounter : M unit :=
  emit (Enter MUnlockCounter) ;;
  bsc <- get ;;
  if counterLocked bsc then
    Logger_Info "Found first commitsig from validator since fully synced, start counting missed blocks in a row..." [] ;;
    modify (set_counterLocked false)
  else ret tt.

Definition GetCurrentHeight : M Z := bsc <- get ;; ret (currentHeight bsc).
Definition SetCurrentHeight (height : Z) : M unit :=
  modify (set_currentHeight height).
Definition GetThreshold : M Z := bsc <- get ;; ret (threshold bsc).
Definition GetMissedInARow : M Z := bsc <- get ;; ret (missedInARow bsc).
Definition GetRank : M Z := bsc <- get ;; ret (rank bsc).
Definition SetRank (rank : Z) : M unit := modify (set_rank rank).

Definition OnMissedTooMany : M unit := emit (Enter MOnMissedTooMany).

Definition Reset : M unit :=
  emit (Enter MReset) ;;
  bsc <- get ;;
  if 0 <? missedInARow bsc then
    Logger_Debug "Reset counter for missed blocks in a row" [] ;;
    modify (set_missedInARow 0)
  else ret tt.

Definition OnPromote : M unit := emit (Enter MOnPromote).

Definition Promote : M error :=
  emit (Enter MPromote) ;;
  bsc <- get ;;
  if rank bsc =? 1 then ret (Some ErrMustShutdown)
  else
    Logger_Info "Promote validator (%v -> %v)"
                [rank bsc; GoInt.wrap (rank bsc - 1)] ;;
    modify (fun b => set_rank (GoInt.wrap (rank b - 1)) b) ;;
    Reset ;;
    OnPromote ;;
    ret None.

Definition Missed : M error :=
  emit (Enter MMissed) ;;
  bsc <- get ;;
  if counterLocked bsc then ret (Some ErrCounterLocked)
  else
    modify (fun b => set_missedInARow (GoInt.wrap (missedInARow b + 1)) b) ;;
    bsc <- get ;;
    if missedInARow bsc <? threshold bsc then
      Logger_Info "Missed a block (%v/%v)" [missedInARow bsc; threshold bsc] ;;
      ret None
    else if missedInARow bsc =? threshold bsc then
      Logger_Info "Missed too many blocks in a row (%v/%v)"
                  [missedInARow bsc; threshold bsc] ;;
      OnMissedTooMany ;;
      err <- Promote ;;
      match err with
      | Some e => ret (Some e)
      | None =>
          modify (fun b => set_currentHeight (GoInt.wrap (currentHeight b + 1)) b) ;;
          ret (Some ErrThresholdExceeded)
      end
    else ret None.

(** [BaseSignCtrled] implements the interface with the methods above. *)
#[export] Instance BaseSignCtrled_SignCtrled : SignCtrled BaseSignCtrled := {
  sc_Missed := Missed;
  sc_OnMissedTooMany := OnMissedTooMany;
  sc_Reset := Reset;
  sc_Promote := Promote;
  sc_OnPromote := OnPromote
}.


(** *** Running a method several times, and the operations as data *)

Fixpoint repeatM {A} (n : nat) (c : M A) : M (list A) :=
  match n with
  | O => ret []
  | S k => a <- c ;; l <- repeatM k c ;; ret (a :: l)
  end.

Inductive Op : Type :=
| OpLockCounter
| OpUnlockCounter
| OpGetCurrentHeight
| OpSetCurrentHeight (height : Z)
| OpGetThreshold
| OpGetMissedInARow
| OpGetRank
| OpSetRank (rank : Z)
| OpMissed
| OpOnMissedTooMany
| OpReset
| OpPromote
| OpOnPromote.

Inductive Ret : Type :=
| RetUnit
| RetInt (z : Z)
| RetError (e : error).

Definition exec (op : Op) : M Ret :=
  match op with
  | OpLockCounter => LockCounter ;; ret RetUnit
  | OpUnlockCounter => UnlockCounter ;; ret RetUnit
  | OpGetCurrentHeight => z <- GetCurrentHeight ;; ret (RetInt z)
  | OpSetCurrentHeight h => SetCurrentHeight h ;; ret RetUnit
  | OpGetThreshold => z <- GetThreshold ;; ret (RetInt z)
  | OpGetMissedInARow => z <- GetMissedInARow ;; ret (RetInt z)
  | OpGetRank => z <- GetRank ;; ret (RetInt z)
  | OpSetRank r => SetRank r ;; ret RetUnit
  | OpMissed => e <- Missed ;; ret (RetError e)
  | OpOnMissedTooMany => OnMissedTooMany ;; ret RetUnit
  | OpReset => Reset ;; ret RetUnit
  | OpPromote => e <- Promote ;; ret (RetError e)
  | OpOnPromote => OnPromote ;; ret RetUnit
  end.

(** The receiver after the calls [ops], made in order. *)
Fixpoint execAll (ops : list Op) (s : BaseSignCtrled) : BaseSignCtrled :=
  match ops with
  | [] => s
  | op :: rest => execAll rest (after (exec op s))
  end.

Definition isSetRank (op : Op) : bool :=
  match op with
  | OpSetRank _ => true
  | _ => false
  end.

(** A [Missed] call that reports [ErrMustShutdown]: the caller is to stop the
    process ([run] below does). *)
Definition shutsDown (op : Op) (s : BaseSignCtrled) : bool :=
  match op, result (exec op s) with
  | OpMissed, RetError (Some ErrMustShutdown) => true
  | _, _ => false
  end.

(** The states the machine goes through from [s0] while no [Missed] call has
    reported [ErrMustShutdown]. *)
Inductive Running (s0 : BaseSignCtrled) : BaseSignCtrled -> Prop :=
| Running_start : Running s0 s0
| Running_step s op :
    Running s0 s -> shutsDown op s = false -> Running s0 (after (exec op s)).

(** *** State transformers used to state what the methods do *)

(** What [Reset] leaves in the receiver. *)
Definition reset_state (s : BaseSignCtrled) : BaseSignCtrled :=
  if 0 <? missedInARow s then set_missedInARow 0 s else s.

(** The receiver of an unlocked [Missed] call once the counter is incremented. *)
Definition counted (s : BaseSignCtrled) : BaseSignCtrled :=
  set_missedInARow (GoInt.wrap (missedInARow s + 1)) s.

(** The result of a [Missed] call and the receiver after it, by the branch
    the call takes. *)
Inductive MissedSpec (s : BaseSignCtrled) : error -> BaseSignCtrled -> Prop :=
| Missed_is_locked :
    counterLocked s = true ->
    MissedSpec s (Some ErrCounterLocked) s
| Missed_is_below :
    counterLocked s = false ->
    missedInARow (counted s) < threshold s ->
    MissedSpec s None (counted s)
| Missed_is_shutdown :
    counterLocked s = false ->
    missedInARow (counted s) = threshold s ->
    rank s = 1 ->
    MissedSpec s (Some ErrMustShutdown) (counted s)
| Missed_is_promoted :
    counterLocked s = false ->
    missedInARow (counted s) = threshold s ->
    rank s <> 1 ->
    MissedSpec s (Some ErrThresholdExceeded)
      (let p := reset_state (set_rank (GoInt.wrap (rank s - 1)) (counted s)) in
       set_currentHeight (GoInt.wrap (currentHeight p + 1)) p)
| Missed_is_above :
    counterLocked s = false ->
    threshold s < missedInARow (counted s) ->
    MissedSpec s None (counted s).

(** ** The message loop of [SCFilePV] *)

(** An error of the delimited reader or writer: [io.EOF], which [run]
    compares by identity, or any other. *)
Inductive IOError : Type :=
| EOF
| IOFailure (msg : string).

Inductive LogArg : Type :=
| ArgIO (e : IOError)
| ArgErr (e : Err).

Inductive Control : Type :=
| Continue
| Return.

(** Whether [run] has returned or sits in [ReadMsg] waiting for a frame. *)
Inductive Outcome : Type :=
| Returned
| Reading.

Section MessageLoop.

(** [tm_privvalproto.Message], a type of Tendermint. *)
Variable Message : Type.

(** What the loop does that the outside sees, in order. *)
Inductive LoopEvent : Type :=
| EvReadMsg (msg : Message) (err : option IOError)
| EvPrintf (format : string) (args : list LogArg)
| EvHandleRequest (msg : Message) (resp : option Message) (err : error)
| EvWriteMsg (resp : option Message) (err : option IOError)
| EvCloseReader
| EvCloseWriter
| EvStop.

(** [SCFilePV]: the embedded [BaseSignCtrled] and the height; the handles on
    the key file, the connection and the termination channel are left out. *)
Record SCFilePV : Type := mkSCFilePV {
  pv_BaseSignCtrled : BaseSignCtrled;
  CurrentHeight : Z
}.

(** [HandleRequest(&msg, pv)], of [privval], which is not among the files
    modelled here: any function of the message and the validator that gives a
    response (possibly nil), an error and the validator afterwards. *)
Variable HandleRequest :
  Message -> SCFilePV -> option Message * error * SCFilePV.

(** What the connection does in one iteration: the content of [msg] after
    [r.ReadMsg(&msg)] and the error it returned, and the error [w.WriteMsg]
    returns should the iteration get to writing. *)
Record IterIO : Type := mkIterIO {
  rd_msg : Message;
  rd_err : option IOError;
  wr_err : option IOError
}.

(** The body of the [for] loop of [run]. *)
Definition iteration (io : IterIO) (pv : SCFilePV)
  : Control * SCFilePV * list LoopEvent :=
  let read := [EvReadMsg (rd_msg io) (rd_err io)] in
  match rd_err io with
  | Some EOF => (Continue, pv, read)
  | rerr =>
      let readlog :=
        match rerr with
        | Some e => [EvPrintf "[ERR] signctrl: couldn't read message: %v\n" [ArgIO e]]
        | None => []
        end in
      let '(resp, err, pv') := HandleRequest (rd_msg io) pv in
      let handle := [EvHandleRequest (rd_msg io) resp err] in
      let write :=
        EvWriteMsg resp (wr_err io) ::
        match wr_err io with
        | Some e => [EvPrintf "[ERR] signctrl: couldn't write message: %v\n" [ArgIO e]]
        | None => []
        end in
      match err with
      | Some e =>
          let errlog :=
            [EvPrintf "[ERR] signctrl: couldn't handle request: %v\n" [ArgErr e]] in
          if Err_eqb e ErrMustShutdown then
            (Return, pv',
             read ++ readlog ++ handle ++ write ++ errlog ++
             [EvPrintf "[DEBUG] signctrl: Terminating run() goroutine" [];
              EvCloseReader; EvCloseWriter; EvStop])
          else (Continue, pv', read ++ readlog ++ handle ++ write ++ errlog)
      | None => (Continue, pv', read ++ readlog ++ handle ++ write)
      end
  end.

(** [run] over the iterations the connection allows so far. *)
Fixpoint run (ios : list IterIO) (pv : SCFilePV)
  : Outcome * SCFilePV * list LoopEvent :=
  match ios with
  | [] => (Reading, pv, [])
  | io :: rest =>
      match iteration io pv with
      | (Return, pv', t) => (Returned, pv', t)
      | (Continue, pv', t) =>
          let '(o, pv'', t') := run rest pv' in (o, pv'', t ++ t')
      end
  end.

Definition isFatal (e : LoopEvent) : bool :=
  match e with
  | EvHandleRequest _ _ (Some ErrMustShutdown) => true
  | _ => false
  end.

Definition isCloseReader (e : LoopEvent) : bool :=
  match e with EvCloseReader => true | _ => false end.
Definition isCloseWriter (e : LoopEvent) : bool :=
  match e with EvCloseWriter => true | _ => false end.
Definition isStop (e : LoopEvent) : bool :=
  match e with EvStop => true | _ => false end.
(** The last four events of a [run] that returns. *)
Definition shutdownEvents : list LoopEvent :=
  [EvPrintf "[DEBUG] signctrl: Terminating run() goroutine" [];
   EvCloseReader; EvCloseWriter; EvStop].

Definition closesOrStops (e : LoopEvent) : bool :=
  isCloseReader e || isCloseWriter e || isStop e.

Definition verdict {A} (r : A * SCFilePV * list LoopEvent) : A := fst (fst r).
Definition validator {A} (r : A * SCFilePV * list LoopEvent) : SCFilePV :=
  snd (fst r).
Definition events {A} (r : A * SCFilePV * list LoopEvent) : list LoopEvent :=
  snd r.

(** The error [HandleRequest] returns for the message of [io]. *)
Definition handled (io : IterIO) (pv : SCFilePV) : error :=
  snd (fst (HandleRequest (rd_msg io) pv)).

End MessageLoop.

Arguments EvReadMsg {Message}.
Arguments EvPrintf {Message}.
Arguments EvHandleRequest {Message}.
Arguments EvWriteMsg {Message}.
Arguments EvCloseReader {Message}.
Arguments EvCloseWriter {Message}.
Arguments EvStop {Message}.
Arguments mkIterIO {Message}.
Arguments rd_msg {Message}.
Arguments rd_err {Message}.
Arguments wr_err {Message}.
Arguments iteration {Message}.
Arguments run {Message}.
Arguments isFatal {Message}.
Arguments isCloseReader {Message}.
Arguments isCloseWriter {Message}.
Arguments isStop {Message}.
Arguments shutdownEvents {Message}.
Arguments closesOrStops {Message}.
Arguments verdict {Message A}.
Arguments validator {Message A}.
Arguments events {Message A}.
Arguments handled {Message}.

(** *** A handler and a validator to run the loop with *)

(** The handler answers the message [n > 0] with
    [n], fails on the empty message [0] with an error of its own, and on
    message [13] reports [ErrMustShutdown]. *)
Definition sampleHandler (msg : nat) (pv : SCFilePV)
  : option nat * error * SCFilePV :=
  match msg with
  | O => (None, Some (ErrOther "empty request"), pv)
  | 13%nat => (None, Some ErrMustShutdown, pv)
  | n => (Some n, None, pv)
  end.

Definition samplePV : SCFilePV :=
  mkSCFilePV (NewBaseSignCtrled None 2 1 None) 1.

(** ** Further definitions: classes of operations, and the result of a round *)

Definition isSetCurrentHeight (op : Op) : bool :=
  match op with
  | OpSetCurrentHeight _ => true
  | _ => false
  end.

Definition isLockOp (op : Op) : bool :=
  match op with
  | OpLockCounter | OpUnlockCounter => true
  | _ => false
  end.

Definition isPromote (op : Op) : bool :=
  match op with
  | OpPromote => true
  | _ => false
  end.

(** The operations a request handler that only reports what it observes
    makes: everything but the two setters and a direct [Promote]. *)
Definition observing (op : Op) : bool :=
  negb (isSetRank op || isSetCurrentHeight op || isPromote op).

(** What [threshold = n + 1] misses in a row return when the last of them
    promotes. *)
Definition promotionRound (n : nat) : list error :=
  repeat None n ++ [Some ErrThresholdExceeded].

(** What they return when the last of them finds rank 1. *)
Definition shutdownRound (n : nat) : list error :=
  repeat None n ++ [Some ErrMustShutdown].

(** ** Further definitions: readings of a trace of [run] *)

Section MessageLoopViews.

Variable Message : Type.

(** The responses [HandleRequest] returned, in order. *)
Definition handledResponses (t : list (LoopEvent Message))
  : list (option Message) :=
  flat_map (fun e => match e with
                     | EvHandleRequest _ resp _ => [resp]
                     | _ => []
                     end) t.

(** The responses given to [w.WriteMsg], in order. *)
Definition writtenResponses (t : list (LoopEvent Message))
  : list (option Message) :=
  flat_map (fun e => match e with
                     | EvWriteMsg resp _ => [resp]
                     | _ => []
                     end) t.

(** The calls of [HandleRequest] in a trace. *)
Definition handlerCalls (t : list (LoopEvent Message))
  : list (LoopEvent Message) :=
  filter (fun e => match e with
                   | EvHandleRequest _ _ _ => true
                   | _ => false
                   end) t.

(** What an iteration reads: the buffer and the reader's error. *)
Definition reading (io : IterIO Message) : Message * option IOError :=
  (rd_msg io, rd_err io).

Definition isEOFRead (io : IterIO Message) : bool :=
  match rd_err io with
  | Some EOF => true
  | _ => false
  end.

Definition isEOFEvent (e : LoopEvent Message) : bool :=
  match e with
  | EvReadMsg _ (Some EOF) => true
  | _ => false
  end.

End MessageLoopViews.

Arguments handledResponses {Message}.
Arguments writtenResponses {Message}.
Arguments handlerCalls {Message}.
Arguments reading {Message}.
Arguments isEOFRead {Message}.
Arguments isEOFEvent {Message}.

(** ** The files of the private validator *)

(** [KeyFile], [StateFile] and [maxRemoteSignerMsgSize] of [sc_file.go]. *)
Definition KeyFile : string := "priv_validator_key.json".
Definition StateFile : string := "priv_validator_state.json".
Definition maxRemoteSignerMsgSize : Z := 1024 * 10.

Definition KeyFilePath (cfgDir : string) : string :=
  (cfgDir ++ "/" ++ KeyFile)%string.

Definition StateFilePath (cfgDir : string) : string :=
  (cfgDir ++ "/" ++ StateFile)%string.

(** ** Facts on machine integers *)

Module GoIntFacts.
Import GoInt.

Lemma wrap_in_range z : in_range z -> wrap z = z.
Proof.
  unfold in_range, min_int, max_int, wrap; intros H.
  rewrite Z.mod_small; lia.
Qed.

Lemma wrap_range z : in_range (wrap z).
Proof.
  unfold in_range, min_int, max_int, wrap.
  pose proof (Z.mod_pos_bound (z + 2 ^ 63) (2 ^ 64) ltac:(lia)). lia.
Qed.

Lemma wrap_succ z : min_int <= z < max_int -> wrap (z + 1) = z + 1.
Proof.
  unfold min_int, max_int; intros; apply wrap_in_range.
  unfold in_range, min_int, max_int; lia.
Qed.

Lemma wrap_pred z : min_int < z <= max_int -> wrap (z - 1) = z - 1.
Proof.
  unfold min_int, max_int; intros; apply wrap_in_range.
  unfold in_range, min_int, max_int; lia.
Qed.

Lemma wrap_succ_max : wrap (max_int + 1) = min_int.
Proof. reflexivity. Qed.

End GoIntFacts.

(** ** Basic facts *)

Lemma Err_eqb_spec a b : reflect (a = b) (Err_eqb a b).
Proof.
  destruct a, b; simpl; try (constructor; congruence).
  destruct (String.eqb_spec msg msg0); constructor; congruence.
Qed.

Lemma result_mk {A} (a : A) s t : result (a, s, t) = a.
Proof. reflexivity. Qed.
Lemma after_mk {A} (a : A) s t : after (a, s, t) = s.
Proof. reflexivity. Qed.
Lemma trace_mk {A} (a : A) s t : trace (a, s, t) = t.
Proof. reflexivity. Qed.

Ltac proj_mk := rewrite ?result_mk, ?after_mk, ?trace_mk.

(** ** Equations of the methods *)


Lemma Reset_after s : after (Reset s) = reset_state s.
Proof. unfold Reset, reset_state, after, bind, get, emit; simpl. destruct (0 <? missedInARow s); reflexivity. Qed.

Lemma Reset_trace s :
  trace (Reset s) =
  Enter MReset ::
  (if 0 <? missedInARow s
   then [LogDebug "Reset counter for missed blocks in a row" []] else []).
Proof. unfold Reset, trace, bind, get, emit; simpl. destruct (0 <? missedInARow s); reflexivity. Qed.

Lemma Promote_rank1 s :
  rank s = 1 -> Promote s = (Some ErrMustShutdown, s, [Enter MPromote]).
Proof. intros H. unfold Promote, bind, get, emit, ret; simpl. rewrite H. reflexivity. Qed.

Lemma Promote_other s :
  rank s <> 1 ->
  result (Promote s) = None /\
  after (Promote s) = reset_state (set_rank (GoInt.wrap (rank s - 1)) s) /\
  invocations MPromote (trace (Promote s)) = 1%nat.
Proof.
  intros H. apply Z.eqb_neq in H.
  unfold Promote, Reset, reset_state, result, after, trace, bind, get, emit, ret,
    modify, Logger_Info, Logger_Debug, OnPromote; simpl.
  rewrite H; simpl. destruct (0 <? missedInARow s); simpl; auto.
Qed.


Lemma Missed_locked s :
  counterLocked s = true -> Missed s = (Some ErrCounterLocked, s, [Enter MMissed]).
Proof. intros H. unfold Missed, bind, get, emit, ret; simpl. rewrite H. reflexivity. Qed.

Lemma Missed_below s :
  counterLocked s = false ->
  missedInARow (counted s) < threshold s ->
  Missed s =
  (None, counted s,
   [Enter MMissed;
    LogInfo "Missed a block (%v/%v)" [missedInARow (counted s); threshold s]]).
Proof.
  intros L H. apply Z.ltb_lt in H.
  unfold Missed, bind, get, emit, ret, modify, Logger_Info; simpl.
  rewrite L; simpl. fold (counted s). simpl in H. rewrite H. reflexivity.
Qed.

Lemma Missed_above s :
  counterLocked s = false ->
  threshold s < missedInARow (counted s) ->
  Missed s = (None, counted s, [Enter MMissed]).
Proof.
  intros L H.
  unfold Missed, bind, get, emit, ret, modify, Logger_Info; simpl.
  rewrite L; simpl. fold (counted s). simpl in H.
  replace (_ <? _) with false by (symmetry; apply Z.ltb_ge; lia).
  replace (_ =? _) with false by (symmetry; apply Z.eqb_neq; lia).
  reflexivity.
Qed.

Lemma Missed_at s :
  counterLocked s = false ->
  missedInARow (counted s) = threshold s ->
  let p := Promote (counted s) in
  result (Missed s) =
    match result p with
    | Some e => Some e
    | None => Some ErrThresholdExceeded
    end /\
  after (Missed s) =
    match result p with
    | Some _ => after p
    | None => set_currentHeight (GoInt.wrap (currentHeight (after p) + 1)) (after p)
    end /\
  invocations MPromote (trace (Missed s)) = invocations MPromote (trace p).
Proof.
  intros L H p.
  unfold Missed, bind, get, emit, ret, modify, Logger_Info, OnMissedTooMany; simpl.
  rewrite L; simpl. fold (counted s). simpl in H.
  replace (_ <? _) with false by (symmetry; apply Z.ltb_ge; lia).
  replace (_ =? _) with true by (symmetry; apply Z.eqb_eq; lia).
  fold p. destruct p as [[[e|] s'] t]; simpl;
    rewrite ?app_nil_r; unfold result, after, invocations; simpl; auto.
Qed.

Lemma invocations_app m t1 t2 :
  invocations m (t1 ++ t2) = (invocations m t1 + invocations m t2)%nat.
Proof. unfold invocations. rewrite filter_app, length_app. reflexivity. Qed.

Lemma repeatM_S {A} n (c : M A) s :
  repeatM (S n) c s =
  (result (c s) :: result (repeatM n c (after (c s))),
   after (repeatM n c (after (c s))),
   trace (c s) ++ trace (repeatM n c (after (c s)))).
Proof.
  simpl. unfold bind, ret, result, after, trace.
  destruct (c s) as [[a s1] t1]; simpl.
  destruct (repeatM n c s1) as [[l s2] t2]; simpl.
  rewrite app_nil_r. reflexivity.
Qed.

(** [n] misses that stay below the threshold only count. *)
Lemma Missed_repeat_below n : forall s,
  counterLocked s = false ->
  0 <= missedInARow s ->
  missedInARow s + Z.of_nat n < threshold s <= GoInt.max_int ->
  result (repeatM n Missed s) = repeat None n /\
  after (repeatM n Missed s) = set_missedInARow (missedInARow s + Z.of_nat n) s /\
  invocations MPromote (trace (repeatM n Missed s)) = 0%nat.
Proof.
  induction n as [|n IH]; intros s L H0 H.
  - simpl. unfold result, after, trace, ret; simpl.
    rewrite Z.add_0_r. destruct s; auto.
  - assert (C : missedInARow (counted s) = missedInARow s + 1).
    { simpl. apply GoIntFacts.wrap_succ. unfold GoInt.min_int, GoInt.max_int in *.
      lia. }
    rewrite repeatM_S.
    rewrite (Missed_below s L) by (rewrite C; lia).
    proj_mk.
    destruct (IH (counted s)) as (R & A & T);
      [exact L | lia | rewrite C; change (threshold (counted s)) with (threshold s); lia |].
    rewrite R, A, invocations_app, T, C.
    repeat split.
    destruct s; unfold counted, set_missedInARow; simpl. f_equal. lia.
Qed.

(** ** The cases of [Missed] *)

Lemma Missed_spec s : MissedSpec s (result (Missed s)) (after (Missed s)).
Proof.
  destruct (counterLocked s) eqn:L.
  - rewrite (Missed_locked s L). proj_mk. now constructor.
  - destruct (Z.lt_trichotomy (missedInARow (counted s)) (threshold s))
      as [H | [H | H]].
    + rewrite (Missed_below s L H). proj_mk. now constructor.
    + destruct (Missed_at s L H) as (Mr & Ma & _).
      rewrite Mr, Ma.
      destruct (Z.eq_dec (rank s) 1) as [R | R].
      * rewrite (Promote_rank1 (counted s) R). proj_mk. now constructor.
      * destruct (Promote_other (counted s) R) as (Pr & Pa & _).
        rewrite Pr, Pa. change (rank (counted s)) with (rank s).
        now apply Missed_is_promoted.
    + rewrite (Missed_above s L H). proj_mk. now constructor.
Qed.

Lemma exec_Missed s :
  result (exec OpMissed s) = RetError (result (Missed s)) /\
  after (exec OpMissed s) = after (Missed s) /\
  trace (exec OpMissed s) = trace (Missed s).
Proof.
  unfold exec, bind, ret, result, after, trace.
  destruct (Missed s) as [[e s'] t]; simpl. rewrite app_nil_r. auto.
Qed.

Lemma exec_Promote s :
  result (exec OpPromote s) = RetError (result (Promote s)) /\
  after (exec OpPromote s) = after (Promote s) /\
  trace (exec OpPromote s) = trace (Promote s).
Proof.
  unfold exec, bind, ret, result, after, trace.
  destruct (Promote s) as [[e s'] t]; simpl. rewrite app_nil_r. auto.
Qed.

Lemma Promote_after s :
  after (Promote s) =
  if rank s =? 1 then s
  else reset_state (set_rank (GoInt.wrap (rank s - 1)) s).
Proof.
  destruct (Z.eqb_spec (rank s) 1) as [R | R].
  - now rewrite (Promote_rank1 s R).
  - now destruct (Promote_other s R) as (_ & Pa & _).
Qed.

(** What each operation leaves in the receiver. *)
Lemma exec_after op s :
  after (exec op s) =
  match op with
  | OpLockCounter => set_counterLocked true s
  | OpUnlockCounter => set_counterLocked false s
  | OpSetCurrentHeight h => set_currentHeight h s
  | OpSetRank r => set_rank r s
  | OpMissed => after (Missed s)
  | OpReset => reset_state s
  | OpPromote => after (Promote s)
  | _ => s
  end.
Proof.
  destruct op; try reflexivity.
  - unfold exec, LockCounter, after, bind, get, emit, ret, modify, Logger_Info; simpl.
    destruct s as [lg [|] h m t r i]; reflexivity.
  - unfold exec, UnlockCounter, after, bind, get, emit, ret, modify, Logger_Info; simpl.
    destruct s as [lg [|] h m t r i]; reflexivity.
  - apply exec_Missed.
  - unfold exec, Reset, reset_state, after, bind, get, emit, ret, modify, Logger_Debug; simpl.
    destruct (0 <? missedInARow s); reflexivity.
  - apply exec_Promote.
Qed.

(** ** The scenarios of the specification *)

(** Threshold 3, rank 3, unlocked, height 10: two counted misses, then the
    promotion to rank 2 with the counter back at 0 and the height at 11. *)
Example scenario_3_3 :
  let s := set_currentHeight 10 (set_counterLocked false (NewBaseSignCtrled None 3 3 None)) in
  let r1 := Missed s in
  let r2 := Missed (after r1) in
  let r3 := Missed (after r2) in
  (result r1, result r2, result r3) = (None, None, Some ErrThresholdExceeded) /\
  rank (after r3) = 2 /\ missedInARow (after r3) = 0 /\ currentHeight (after r3) = 11.
Proof. vm_compute. auto. Qed.

(** Threshold 2, rank 1, unlocked: a counted miss, then the miss that reaches
    the threshold and returns [ErrMustShutdown] with the height as it was. *)
Example scenario_2_1 :
  let s := set_counterLocked false (NewBaseSignCtrled None 2 1 None) in
  let r1 := Missed s in
  let r2 := Missed (after r1) in
  (result r1, result r2) = (None, Some ErrMustShutdown) /\
  rank (after r2) = 1 /\ missedInARow (after r2) = 2 /\
  currentHeight (after r2) = currentHeight s.
Proof. vm_compute. auto. Qed.

(** ** The threshold-th miss promotes *)

(** C1.  From a receiver with [missedInARow = 0], the counter unlocked and
    [rank > 1], whose threshold is [n + 1]: the first [n] calls of [Missed]
    return nil and never enter [Promote]; the call after them, the
    threshold-th, enters [Promote] exactly once and returns
    [ErrThresholdExceeded], and right after it [missedInARow] is 0 and [rank]
    is one less than at the start. *)
Theorem Missed_threshold_th_call_promotes_once (s : BaseSignCtrled) (n : nat) :
  missedInARow s = 0 ->
  counterLocked s = false ->
  1 < rank s <= GoInt.max_int ->
  threshold s = Z.of_nat (S n) ->
  threshold s <= GoInt.max_int ->
  let earlier := repeatM n Missed s in
  let last := Missed (after earlier) in
  result earlier = repeat None n /\
  invocations MPromote (trace earlier) = 0%nat /\
  rank (after earlier) = rank s /\
  invocations MPromote (trace last) = 1%nat /\
  result last = Some ErrThresholdExceeded /\
  missedInARow (after last) = 0 /\
  rank (after last) = rank s - 1.
Proof.
  intros M0 L R T Tmax earlier last.
  destruct (Missed_repeat_below n s L) as (Hr & Ha & Ht); [lia | lia |].
  fold earlier in Hr, Ha, Ht.
  assert (L' : counterLocked (after earlier) = false) by (rewrite Ha; exact L).
  assert (C : missedInARow (counted (after earlier)) = threshold (after earlier)).
  { rewrite Ha. simpl. rewrite M0, T.
    rewrite GoIntFacts.wrap_succ; unfold GoInt.min_int, GoInt.max_int in *; lia. }
  destruct (Missed_at (after earlier) L' C) as (Mr & Ma & Mt).
  fold last in Mr, Ma, Mt.
  assert (R' : rank (counted (after earlier)) <> 1) by (rewrite Ha; simpl; lia).
  destruct (Promote_other _ R') as (Pr & Pa & Pt).
  rewrite Pr in Mr, Ma. rewrite Pt in Mt. rewrite Pa in Ma.
  assert (W : GoInt.wrap (rank s - 1) = rank s - 1).
  { apply GoIntFacts.wrap_pred. unfold GoInt.min_int, GoInt.max_int in *. lia. }
  repeat split; auto.
  - rewrite Ha. reflexivity.
  - rewrite Ma. unfold reset_state.
    change (missedInARow (set_rank ?r ?x)) with (missedInARow x).
    rewrite C, Ha. simpl threshold. rewrite T.
    replace (0 <? Z.of_nat (S n)) with true by (symmetry; apply Z.ltb_lt; lia).
    reflexivity.
  - rewrite Ma. unfold reset_state.
    change (missedInARow (set_rank ?r ?x)) with (missedInARow x).
    destruct (0 <? _); simpl; rewrite Ha; simpl; exact W.
Qed.

Lemma Missed_threshold_th_call_promotes_once_witness :
  let s := set_counterLocked false (NewBaseSignCtrled None 3 3 None) in
  let earlier := repeatM 2 Missed s in
  let last := Missed (after earlier) in
  result earlier = [None; None] /\
  invocations MPromote (trace earlier) = 0%nat /\
  rank (after earlier) = 3 /\
  invocations MPromote (trace last) = 1%nat /\
  result last = Some ErrThresholdExceeded /\
  missedInARow (after last) = 0 /\
  rank (after last) = 2.
Proof.
  apply (Missed_threshold_th_call_promotes_once
           (set_counterLocked false (NewBaseSignCtrled None 3 3 None)) 2);
    simpl; unfold GoInt.max_int; try reflexivity; lia.
Defined.

(** ** The bounds of [missedInARow] *)

Lemma reset_state_fields s :
  threshold (reset_state s) = threshold s /\
  rank (reset_state s) = rank s /\
  currentHeight (reset_state s) = currentHeight s /\
  counterLocked (reset_state s) = counterLocked s /\
  impl (reset_state s) = impl s /\
  missedInARow (reset_state s) = Z.min 0 (missedInARow s).
Proof.
  unfold reset_state. destruct (Z.ltb_spec 0 (missedInARow s)); simpl; repeat split; lia.
Qed.

(** One operation from a receiver whose counter is below the threshold: the
    counter stays within the threshold, and below it unless the operation is
    a [Missed] that reports [ErrMustShutdown]. *)
Lemma exec_keeps_bounds op s :
  threshold s <= GoInt.max_int ->
  0 <= missedInARow s < threshold s ->
  threshold (after (exec op s)) = threshold s /\
  0 <= missedInARow (after (exec op s)) <= threshold s /\
  (shutsDown op s = false -> missedInARow (after (exec op s)) < threshold s).
Proof.
  intros Tmax B.
  assert (C : missedInARow (counted s) = missedInARow s + 1).
  { simpl. apply GoIntFacts.wrap_succ. unfold GoInt.min_int, GoInt.max_int in *. lia. }
  unfold shutsDown. rewrite exec_after.
  destruct op; cbv beta iota;
    try change (threshold (set_counterLocked ?b ?x)) with (threshold x);
    try change (missedInARow (set_counterLocked ?b ?x)) with (missedInARow x);
    try change (threshold (set_currentHeight ?b ?x)) with (threshold x);
    try change (missedInARow (set_currentHeight ?b ?x)) with (missedInARow x);
    try change (threshold (set_rank ?b ?x)) with (threshold x);
    try change (missedInARow (set_rank ?b ?x)) with (missedInARow x);
    try (repeat split; lia).
  - destruct (exec_Missed s) as (Er & _). rewrite Er. clear Er.
    destruct (Missed_spec s) as [L | L H | L H R | L H R | L H].
    + repeat split; lia.
    + change (threshold (counted s)) with (threshold s). repeat split; lia.
    + change (threshold (counted s)) with (threshold s).
      repeat split; try lia; discriminate.
    + cbv zeta.
      destruct (reset_state_fields (set_rank (GoInt.wrap (rank s - 1)) (counted s)))
        as (Ft & _ & _ & _ & _ & Fm).
      change (threshold (set_currentHeight ?h ?x)) with (threshold x).
      change (missedInARow (set_currentHeight ?h ?x)) with (missedInARow x).
      rewrite Ft, Fm.
      change (missedInARow (set_rank ?r ?x)) with (missedInARow x).
      change (threshold (set_rank ?r ?x)) with (threshold x).
      change (threshold (counted s)) with (threshold s).
      repeat split; lia.
    + lia.
  - destruct (reset_state_fields s) as (Ft & _ & _ & _ & _ & Fm).
    rewrite Ft, Fm. repeat split; lia.
  - rewrite Promote_after. destruct (rank s =? 1).
    + repeat split; lia.
    + destruct (reset_state_fields (set_rank (GoInt.wrap (rank s - 1)) s))
        as (Ft & _ & _ & _ & _ & Fm).
      rewrite Ft, Fm. simpl. repeat split; lia.
Qed.

(** C2, as the code has it.  With a threshold of at least 1, every state the
    machine goes through from its initial state while no [Missed] call has
    reported [ErrMustShutdown] has [0 <= missedInARow < threshold], and
    whatever operation comes next leaves [0 <= missedInARow <= threshold]:
    also the [Missed] call whose [Promote] fails at rank 1, which leaves the
    counter at the threshold. *)
Theorem missedInARow_bounded_until_shutdown
        lg thr rk im (s : BaseSignCtrled) :
  1 <= thr <= GoInt.max_int ->
  Running (NewBaseSignCtrled lg thr rk im) s ->
  threshold s = thr /\
  0 <= missedInARow s < threshold s /\
  forall op,
    0 <= missedInARow (after (exec op s)) <= threshold (after (exec op s)).
Proof.
  intros T Hrun.
  assert (I : threshold s = thr /\ 0 <= missedInARow s < threshold s).
  { induction Hrun as [| s op Hrun IH Hlive].
    - simpl. lia.
    - destruct IH as (It & Ib).
      destruct (exec_keeps_bounds op s) as (Kt & Kb & Kl); [lia | exact Ib |].
      specialize (Kl Hlive). rewrite Kt. split; lia. }
  destruct I as (It & Ib). repeat split; try lia;
    destruct (exec_keeps_bounds op s) as (Kt & Kb & _); try lia.
Qed.

Lemma missedInARow_bounded_until_shutdown_witness :
  let s0 := NewBaseSignCtrled None 2 1 None in
  let s := after (exec OpMissed (after (exec OpUnlockCounter s0))) in
  threshold s = 2 /\
  0 <= missedInARow s < threshold s /\
  forall op,
    0 <= missedInARow (after (exec op s)) <= threshold (after (exec op s)).
Proof.
  apply (missedInARow_bounded_until_shutdown None 2 1 None).
  - unfold GoInt.max_int. lia.
  - apply Running_step; [apply Running_step; [apply Running_start |] |];
      reflexivity.
Defined.

(** C2, as stated, fails: at rank 1 the [Missed] call that reaches the
    threshold returns [ErrMustShutdown] and leaves the counter there, and the
    next [Missed] call counts past it. *)
Lemma missedInARow_exceeds_threshold_after_shutdown :
  let s := execAll [OpUnlockCounter; OpMissed; OpMissed; OpMissed]
                   (NewBaseSignCtrled None 2 1 None) in
  result (Missed (execAll [OpUnlockCounter; OpMissed]
                          (NewBaseSignCtrled None 2 1 None)))
    = Some ErrMustShutdown /\
  missedInARow s = 3 /\ threshold s = 2 /\
  ~ (0 <= missedInARow s <= threshold s).
Proof.
  vm_compute. repeat split; try reflexivity. intros [_ H]. apply H. reflexivity.
Qed.

(** ** The rank *)

Lemma exec_keeps_rank op s :
  isSetRank op = false ->
  1 <= rank s <= GoInt.max_int ->
  1 <= rank (after (exec op s)) <= rank s.
Proof.
  intros NS R.
  assert (W : rank s <> 1 -> GoInt.wrap (rank s - 1) = rank s - 1).
  { intros. apply GoIntFacts.wrap_pred. unfold GoInt.min_int, GoInt.max_int in *. lia. }
  rewrite exec_after.
  destruct op; try discriminate NS; cbv beta iota;
    try change (rank (set_counterLocked ?b ?x)) with (rank x);
    try change (rank (set_currentHeight ?b ?x)) with (rank x);
    try lia.
  - destruct (Missed_spec s) as [L | L H | L H Q | L H Q | L H];
      try (change (rank (counted s)) with (rank s); lia).
    cbv zeta. change (rank (set_currentHeight ?h ?x)) with (rank x).
    destruct (reset_state_fields (set_rank (GoInt.wrap (rank s - 1)) (counted s)))
      as (_ & Fr & _).
    rewrite Fr. simpl. rewrite (W Q). lia.
  - destruct (reset_state_fields s) as (_ & Fr & _). rewrite Fr. lia.
  - rewrite Promote_after. destruct (Z.eqb_spec (rank s) 1) as [Q | Q]; [lia |].
    destruct (reset_state_fields (set_rank (GoInt.wrap (rank s - 1)) s))
      as (_ & Fr & _).
    rewrite Fr. simpl. rewrite (W Q). lia.
Qed.

(** C6, as the code has it.  From a receiver with [rank >= 1], any sequence
    of operations none of which is [SetRank] leaves [rank >= 1] and no higher
    than it was. *)
Theorem rank_only_moves_toward_1_without_SetRank
        (ops : list Op) (s : BaseSignCtrled) :
  forallb (fun op => negb (isSetRank op)) ops = true ->
  1 <= rank s <= GoInt.max_int ->
  1 <= rank (execAll ops s) <= rank s.
Proof.
  revert s. induction ops as [| op ops IH]; intros s NS R.
  - simpl. lia.
  - simpl in NS. apply andb_prop in NS. destruct NS as [N1 N2].
    apply negb_true_iff in N1.
    pose proof (exec_keeps_rank op s N1 R) as K.
    simpl. specialize (IH (after (exec op s)) N2). lia.
Qed.

Lemma rank_only_moves_toward_1_without_SetRank_witness :
  let s := set_counterLocked false (NewBaseSignCtrled None 2 3 None) in
  let ops := [OpMissed; OpMissed; OpReset; OpLockCounter; OpPromote; OpPromote] in
  1 <= rank (execAll ops s) <= rank s.
Proof.
  apply (rank_only_moves_toward_1_without_SetRank
           [OpMissed; OpMissed; OpReset; OpLockCounter; OpPromote; OpPromote]
           (set_counterLocked false (NewBaseSignCtrled None 2 3 None))).
  - reflexivity.
  - simpl. unfold GoInt.max_int. lia.
Defined.

(** C6, as stated, fails: [SetRank] stores the rank it is given, be it higher
    than the current one or below 1. *)
Lemma SetRank_raises_rank :
  let s0 := NewBaseSignCtrled None 2 2 None in
  rank s0 = 2 /\
  rank (after (exec (OpSetRank 5) s0)) = 5 /\
  ~ (rank (after (exec (OpSetRank 5) s0)) <= rank s0) /\
  ~ (1 <= rank (after (exec (OpSetRank 0) s0))).
Proof. vm_compute. repeat split; try reflexivity; intros H; apply H; reflexivity. Qed.

(** ** Promotion at rank 1 *)

Lemma Promote_fails_iff s : result (Promote s) <> None <-> rank s = 1.
Proof.
  destruct (Z.eq_dec (rank s) 1) as [R | R].
  - rewrite (Promote_rank1 s R). proj_mk. split; [auto | discriminate].
  - destruct (Promote_other s R) as (Pr & _). rewrite Pr. tauto.
Qed.

(** C3.  [Promote] on a receiver with [rank = 1] returns [ErrMustShutdown]
    and leaves every field as it was (and [Promote] fails at no other rank).
    When the [Promote] that [Missed] calls on reaching the threshold fails
    with [e], [Missed] returns that [e], which is [ErrMustShutdown] and not
    [ErrThresholdExceeded], and [currentHeight] is as before the call. *)
Theorem Promote_at_rank_1_must_shutdown :
  (forall s, rank s = 1 ->
     result (Promote s) = Some ErrMustShutdown /\ after (Promote s) = s) /\
  (forall s, result (Promote s) <> None -> rank s = 1) /\
  (forall s e,
     counterLocked s = false ->
     missedInARow (counted s) = threshold s ->
     result (Promote (counted s)) = Some e ->
     result (Missed s) = Some e /\
     e = ErrMustShutdown /\
     result (Missed s) <> Some ErrThresholdExceeded /\
     currentHeight (after (Missed s)) = currentHeight s /\
     rank (after (Missed s)) = rank s).
Proof.
  split; [| split].
  - intros s R. rewrite (Promote_rank1 s R). auto.
  - intros s. apply Promote_fails_iff.
  - intros s e L H P.
    assert (R : rank (counted s) = 1) by (apply Promote_fails_iff; congruence).
    rewrite (Promote_rank1 _ R) in P. proj_mk. injection P as <-.
    destruct (Missed_at s L H) as (Mr & Ma & _).
    rewrite (Promote_rank1 _ R) in Mr, Ma. proj_mk.
    rewrite Mr, Ma. repeat split; auto. discriminate.
Qed.

Lemma Promote_at_rank_1_must_shutdown_witness :
  let s := execAll [OpUnlockCounter; OpMissed] (NewBaseSignCtrled None 2 1 None) in
  (result (Promote s) = Some ErrMustShutdown /\ after (Promote s) = s) /\
  (result (Missed s) = Some ErrMustShutdown /\
   ErrMustShutdown = ErrMustShutdown /\
   result (Missed s) <> Some ErrThresholdExceeded /\
   currentHeight (after (Missed s)) = currentHeight s /\
   rank (after (Missed s)) = rank s).
Proof.
  split.
  - apply (proj1 Promote_at_rank_1_must_shutdown). reflexivity.
  - apply (proj2 (proj2 Promote_at_rank_1_must_shutdown)); reflexivity.
Defined.

(** ** The height skipped on promotion *)

(** C4, as the code has it.  When a [Missed] call reaches the threshold and
    the [Promote] it calls succeeds, the call returns [ErrThresholdExceeded]
    and [currentHeight] is the 64-bit successor of its value before the call:
    one greater, unless that value was the greatest [int64]. *)
Theorem Missed_promoting_call_skips_a_height (s : BaseSignCtrled) :
  counterLocked s = false ->
  missedInARow (counted s) = threshold s ->
  result (Promote (counted s)) = None ->
  result (Missed s) = Some ErrThresholdExceeded /\
  currentHeight (after (Missed s)) = GoInt.wrap (currentHeight s + 1) /\
  (GoInt.min_int <= currentHeight s < GoInt.max_int ->
   currentHeight (after (Missed s)) = currentHeight s + 1).
Proof.
  intros L H P.
  destruct (Missed_at s L H) as (Mr & Ma & _).
  rewrite P in Mr, Ma.
  assert (Hh : currentHeight (after (Promote (counted s))) = currentHeight s).
  { rewrite Promote_after. destruct (rank (counted s) =? 1); [reflexivity |].
    destruct (reset_state_fields
                (set_rank (GoInt.wrap (rank (counted s) - 1)) (counted s)))
      as (_ & _ & Fh & _).
    rewrite Fh. reflexivity. }
  rewrite Ma. simpl currentHeight at 1. rewrite Hh.
  repeat split; auto. apply GoIntFacts.wrap_succ.
Qed.

Lemma Missed_promoting_call_skips_a_height_witness :
  let s := execAll [OpUnlockCounter; OpSetCurrentHeight 10; OpMissed; OpMissed]
                   (NewBaseSignCtrled None 3 3 None) in
  result (Missed s) = Some ErrThresholdExceeded /\
  currentHeight (after (Missed s)) = GoInt.wrap (10 + 1) /\
  (GoInt.min_int <= 10 < GoInt.max_int ->
   currentHeight (after (Missed s)) = 10 + 1).
Proof.
  apply (Missed_promoting_call_skips_a_height
           (execAll [OpUnlockCounter; OpSetCurrentHeight 10; OpMissed; OpMissed]
                    (NewBaseSignCtrled None 3 3 None)));
    reflexivity.
Defined.

(** C4, as stated, fails at the greatest height an [int64] holds: the
    promoting call wraps [currentHeight] to the least one. *)
Lemma Missed_wraps_currentHeight_at_max_int64 :
  let s := execAll [OpUnlockCounter; OpSetCurrentHeight (2 ^ 63 - 1); OpMissed]
                   (NewBaseSignCtrled None 2 2 None) in
  result (Promote (counted s)) = None /\
  result (Missed s) = Some ErrThresholdExceeded /\
  currentHeight s = 2 ^ 63 - 1 /\
  currentHeight (after (Missed s)) = - 2 ^ 63 /\
  currentHeight (after (Missed s)) <> currentHeight s + 1.
Proof. vm_compute. repeat split; discriminate. Qed.

(** ** The locked counter *)

Lemma Missed_repeat_locked n s :
  counterLocked s = true ->
  repeatM n Missed s =
  (repeat (Some ErrCounterLocked) n, s, repeat (Enter MMissed) n).
Proof.
  intros L. induction n as [| n IH]; [reflexivity |].
  rewrite repeatM_S, (Missed_locked s L). proj_mk. rewrite IH. reflexivity.
Qed.

Lemma UnlockCounter_after s : after (UnlockCounter s) = set_counterLocked false s.
Proof.
  unfold UnlockCounter, after, bind, get, emit, ret, modify, Logger_Info; simpl.
  destruct s as [lg [|] h m t r i]; reflexivity.
Qed.

Lemma LockCounter_after s : after (LockCounter s) = set_counterLocked true s.
Proof.
  unfold LockCounter, after, bind, get, emit, ret, modify, Logger_Info; simpl.
  destruct s as [lg [|] h m t r i]; reflexivity.
Qed.

(** C5.  On a receiver with [counterLocked = true], as the one
    [NewBaseSignCtrled] makes is (with [currentHeight = 1]), a [Missed] call
    returns [ErrCounterLocked] and leaves the receiver as it was, however
    many times it is made.  [UnlockCounter] then clears [counterLocked] and
    nothing else, so the next [Missed] call is that of the unlocked receiver:
    it does not return [ErrCounterLocked], and it counts. *)
Theorem Missed_while_counter_locked (s : BaseSignCtrled) (n : nat) :
  counterLocked s = true ->
  (forall lg thr rk im,
     counterLocked (NewBaseSignCtrled lg thr rk im) = true /\
     currentHeight (NewBaseSignCtrled lg thr rk im) = 1) /\
  result (Missed s) = Some ErrCounterLocked /\
  after (Missed s) = s /\
  result (repeatM n Missed s) = repeat (Some ErrCounterLocked) n /\
  after (repeatM n Missed s) = s /\
  let u := after (UnlockCounter (after (repeatM n Missed s))) in
  u = set_counterLocked false s /\
  Missed u = Missed (set_counterLocked false s) /\
  MissedSpec (set_counterLocked false s) (result (Missed u)) (after (Missed u)) /\
  result (Missed u) <> Some ErrCounterLocked /\
  (missedInARow (after (Missed u)) = GoInt.wrap (missedInARow s + 1) \/
   result (Missed u) = Some ErrThresholdExceeded).
Proof.
  intros L.
  rewrite (Missed_repeat_locked n s L), (Missed_locked s L). proj_mk.
  rewrite UnlockCounter_after.
  repeat split; auto.
  - apply Missed_spec.
  - destruct (Missed_spec (set_counterLocked false s));
      try discriminate; simpl in *; congruence.
  - destruct (Missed_spec (set_counterLocked false s));
      try (left; reflexivity); auto.
    simpl in *. congruence.
Qed.

Lemma Missed_while_counter_locked_witness :
  let s := NewBaseSignCtrled None 3 2 None in
  (forall lg thr rk im,
     counterLocked (NewBaseSignCtrled lg thr rk im) = true /\
     currentHeight (NewBaseSignCtrled lg thr rk im) = 1) /\
  result (Missed s) = Some ErrCounterLocked /\
  after (Missed s) = s /\
  result (repeatM 4 Missed s) = repeat (Some ErrCounterLocked) 4 /\
  after (repeatM 4 Missed s) = s /\
  let u := after (UnlockCounter (after (repeatM 4 Missed s))) in
  u = set_counterLocked false s /\
  Missed u = Missed (set_counterLocked false s) /\
  MissedSpec (set_counterLocked false s) (result (Missed u)) (after (Missed u)) /\
  result (Missed u) <> Some ErrCounterLocked /\
  (missedInARow (after (Missed u)) = GoInt.wrap (missedInARow s + 1) \/
   result (Missed u) = Some ErrThresholdExceeded).
Proof.
  apply (Missed_while_counter_locked (NewBaseSignCtrled None 3 2 None) 4).
  reflexivity.
Defined.

(** ** Idempotence *)

(** The counter grows by at most one per operation and, short of the
    greatest [int], never turns negative. *)
Lemma exec_counts_at_most_one op s :
  0 <= missedInARow s < GoInt.max_int ->
  0 <= missedInARow (after (exec op s)) <= missedInARow s + 1.
Proof.
  intros B.
  assert (C : missedInARow (counted s) = missedInARow s + 1).
  { simpl. apply GoIntFacts.wrap_succ. unfold GoInt.min_int, GoInt.max_int in *. lia. }
  rewrite exec_after.
  destruct op; cbv beta iota;
    try change (missedInARow (set_counterLocked ?b ?x)) with (missedInARow x);
    try change (missedInARow (set_currentHeight ?b ?x)) with (missedInARow x);
    try change (missedInARow (set_rank ?b ?x)) with (missedInARow x);
    try lia.
  - destruct (Missed_spec s) as [L | L H | L H R | L H R | L H]; try lia.
    cbv zeta.
    change (missedInARow (set_currentHeight ?h ?x)) with (missedInARow x).
    destruct (reset_state_fields (set_rank (GoInt.wrap (rank s - 1)) (counted s)))
      as (_ & _ & _ & _ & _ & Fm).
    rewrite Fm.
    change (missedInARow (set_rank ?r ?x)) with (missedInARow x). lia.
  - destruct (reset_state_fields s) as (_ & _ & _ & _ & _ & Fm). lia.
  - rewrite Promote_after. destruct (rank s =? 1); [lia |].
    destruct (reset_state_fields (set_rank (GoInt.wrap (rank s - 1)) s))
      as (_ & _ & _ & _ & _ & Fm).
    rewrite Fm. simpl. lia.
Qed.

Lemma execAll_counts ops : forall s,
  0 <= missedInARow s ->
  missedInARow s + Z.of_nat (List.length ops) <= GoInt.max_int ->
  0 <= missedInARow (execAll ops s) <= missedInARow s + Z.of_nat (List.length ops).
Proof.
  induction ops as [| op ops IH]; intros s B K.
  - simpl. lia.
  - simpl execAll. simpl List.length in *.
    pose proof (exec_counts_at_most_one op s ltac:(lia)) as S1.
    specialize (IH (after (exec op s)) ltac:(lia) ltac:(lia)). lia.
Qed.

(** C9.  A second [Reset] changes nothing and logs nothing, and after a
    [Reset] of a counter that is not negative [missedInARow] is 0; the
    counter is not negative in any state that fewer than [2 ^ 63] operations
    lead to from the initial one.  [LockCounter] and [UnlockCounter] are idempotent; from any receiver,
    [UnlockCounter] then [LockCounter] leaves [counterLocked = true] and
    [LockCounter] then [UnlockCounter] leaves [counterLocked = false]. *)
Theorem Reset_and_locks_are_idempotent (s : BaseSignCtrled) :
  (0 <= missedInARow s -> missedInARow (after (Reset s)) = 0) /\
  (forall ops lg thr rk im,
     Z.of_nat (List.length ops) <= GoInt.max_int ->
     missedInARow
       (after (Reset (execAll ops (NewBaseSignCtrled lg thr rk im)))) = 0) /\
  Reset (after (Reset s)) = (tt, after (Reset s), [Enter MReset]) /\
  after (LockCounter (after (LockCounter s))) = after (LockCounter s) /\
  after (UnlockCounter (after (UnlockCounter s))) = after (UnlockCounter s) /\
  trace (LockCounter (after (LockCounter s))) = [Enter MLockCounter] /\
  trace (UnlockCounter (after (UnlockCounter s))) = [Enter MUnlockCounter] /\
  counterLocked (after (LockCounter (after (UnlockCounter s)))) = true /\
  counterLocked (after (UnlockCounter (after (LockCounter s)))) = false.
Proof.
  rewrite Reset_after.
  destruct (reset_state_fields s) as (_ & _ & _ & _ & _ & Fm).
  repeat split.
  - lia.
  - intros ops lg thr rk im K. rewrite Reset_after.
    pose proof (execAll_counts ops (NewBaseSignCtrled lg thr rk im)) as E.
    simpl missedInARow at 1 2 in E.
    destruct (reset_state_fields (execAll ops (NewBaseSignCtrled lg thr rk im)))
      as (_ & _ & _ & _ & _ & Fm').
    lia.
  - unfold Reset, bind, get, emit, ret, modify, Logger_Debug; simpl.
    replace (0 <? missedInARow (reset_state s)) with false
      by (symmetry; apply Z.ltb_ge; lia).
    reflexivity.
  - rewrite !LockCounter_after. reflexivity.
  - rewrite !UnlockCounter_after. reflexivity.
  - rewrite LockCounter_after. reflexivity.
  - rewrite UnlockCounter_after. reflexivity.
  - rewrite LockCounter_after. reflexivity.
  - rewrite UnlockCounter_after. reflexivity.
Qed.

Lemma Reset_and_locks_are_idempotent_witness :
  let s := execAll [OpUnlockCounter; OpMissed; OpMissed]
                   (NewBaseSignCtrled None 3 2 None) in
  missedInARow s = 2 /\ missedInARow (after (Reset s)) = 0.
Proof.
  split; [reflexivity |].
  apply (proj1 (Reset_and_locks_are_idempotent
                  (execAll [OpUnlockCounter; OpMissed; OpMissed]
                           (NewBaseSignCtrled None 3 2 None)))).
  vm_compute. discriminate.
Defined.

(** ** The [impl] field *)

(** Replacing [impl] commutes with every operation: none reads the field. *)
Lemma exec_set_impl i op s :
  exec op (set_impl i s) =
  (result (exec op s), set_impl i (after (exec op s)), trace (exec op s)).
Proof.
  destruct s as [lg l h m t r im].
  destruct op; cbv - [Z.ltb Z.eqb Z.add Z.sub GoInt.wrap];
    repeat match goal with
           | |- context [if ?b then _ else _] => destruct b
           end;
    reflexivity.
Qed.

(** C10.  No operation of [BaseSignCtrled] calls or reads [impl]: with any
    two interface values in the field (nil, or of any dynamic type with any
    methods), every operation returns the same result, leaves the same trace
    of calls and the same receiver but for the field itself, which it leaves
    as it found it; the constructor only stores its [impl] argument.  The
    hooks [OnMissedTooMany] and [OnPromote] that [Missed] and [Promote] enter
    are those of [BaseSignCtrled], which change nothing. *)
Theorem impl_is_never_invoked
        (i1 i2 : option SignCtrledValue) (op : Op) (s : BaseSignCtrled) :
  result (exec op (set_impl i1 s)) = result (exec op (set_impl i2 s)) /\
  trace (exec op (set_impl i1 s)) = trace (exec op (set_impl i2 s)) /\
  after (exec op (set_impl i1 s)) =
    set_impl i1 (after (exec op (set_impl i2 s))) /\
  impl (after (exec op (set_impl i1 s))) = i1 /\
  (forall lg thr rk,
     NewBaseSignCtrled lg thr rk i1 =
     set_impl i1 (NewBaseSignCtrled lg thr rk i2)) /\
  OnMissedTooMany s = (tt, s, [Enter MOnMissedTooMany]) /\
  OnPromote s = (tt, s, [Enter MOnPromote]) /\
  invocations MOnMissedTooMany (trace (Missed (set_impl i1 s))) =
    invocations MOnMissedTooMany (trace (Missed (set_impl i2 s))) /\
  invocations MOnPromote (trace (Promote (set_impl i1 s))) =
    invocations MOnPromote (trace (Promote (set_impl i2 s))).
Proof.
  rewrite (exec_set_impl i1 op s), (exec_set_impl i2 op s). proj_mk.
  pose proof (exec_set_impl i1 OpMissed s) as M1.
  pose proof (exec_set_impl i2 OpMissed s) as M2.
  pose proof (exec_set_impl i1 OpPromote s) as P1.
  pose proof (exec_set_impl i2 OpPromote s) as P2.
  apply (f_equal trace) in M1, M2, P1, P2. revert M1 M2 P1 P2. proj_mk.
  rewrite !(proj2 (proj2 (exec_Missed _))), !(proj2 (proj2 (exec_Promote _))).
  intros -> -> -> ->.
  repeat split; reflexivity.
Qed.

(** ** The message loop *)

Section MessageLoopFacts.

Context {Message : Type}.
Variable HandleRequest :
  Message -> SCFilePV -> option Message * error * SCFilePV.

Lemma verdict_mk {A} (a : A) pv (t : list (LoopEvent Message)) :
  verdict (a, pv, t) = a.
Proof. reflexivity. Qed.
Lemma validator_mk {A} (a : A) pv (t : list (LoopEvent Message)) :
  validator (a, pv, t) = pv.
Proof. reflexivity. Qed.
Lemma events_mk {A} (a : A) pv (t : list (LoopEvent Message)) :
  events (a, pv, t) = t.
Proof. reflexivity. Qed.

Lemma iteration_EOF io pv :
  rd_err io = Some EOF ->
  iteration HandleRequest io pv = (Continue, pv, [EvReadMsg (rd_msg io) (Some EOF)]).
Proof. intros E. unfold iteration. rewrite E. reflexivity. Qed.

(** An iteration either goes on, having neither closed nor stopped
    anything nor seen [ErrMustShutdown], or returns, having seen it and ending
    in [shutdownEvents]. *)
Lemma iteration_cases io pv :
  (verdict (iteration HandleRequest io pv) = Continue /\
   (rd_err io = Some EOF \/ handled HandleRequest io pv <> Some ErrMustShutdown) /\
   existsb isFatal (events (iteration HandleRequest io pv)) = false /\
   existsb closesOrStops (events (iteration HandleRequest io pv)) = false)
  \/
  (verdict (iteration HandleRequest io pv) = Return /\
   rd_err io <> Some EOF /\ handled HandleRequest io pv = Some ErrMustShutdown /\
   existsb isFatal (events (iteration HandleRequest io pv)) = true /\
   exists t, events (iteration HandleRequest io pv) = t ++ shutdownEvents /\
             existsb closesOrStops t = false).
Proof.
  unfold iteration, handled, verdict, events.
  destruct io as [msg rerr werr]; simpl.
  destruct (HandleRequest msg pv) as [[resp err] pv'] eqn:HR; simpl.
  destruct rerr as [[| re] |]; simpl.
  - left. auto.
  - destruct err as [[| | |] |]; destruct werr; simpl;
      try (left; repeat split; auto; right; discriminate).
    + right. repeat split; try discriminate.
      eexists [_; _; _; _; _; _]. split; reflexivity.
    + right. repeat split; try discriminate.
      eexists [_; _; _; _; _]. split; reflexivity.
  - destruct err as [[| | |] |]; destruct werr; simpl;
      try (left; repeat split; auto; right; discriminate).
    + right. repeat split; try discriminate.
      eexists [_; _; _; _; _]. split; reflexivity.
    + right. repeat split; try discriminate.
      eexists [_; _; _; _]. split; reflexivity.
Qed.

Lemma run_cons io ios pv :
  run HandleRequest (io :: ios) pv =
  match verdict (iteration HandleRequest io pv) with
  | Return => (Returned, validator (iteration HandleRequest io pv),
               events (iteration HandleRequest io pv))
  | Continue =>
      let r := run HandleRequest ios (validator (iteration HandleRequest io pv)) in
      (verdict r, validator r, events (iteration HandleRequest io pv) ++ events r)
  end.
Proof.
  simpl. unfold verdict, validator, events.
  destruct (iteration HandleRequest io pv) as [[[|] pv'] t]; simpl; [| reflexivity].
  destruct (run HandleRequest ios pv') as [[o pv''] t']. reflexivity.
Qed.

Lemma run_cases ios : forall pv,
  (verdict (run HandleRequest ios pv) = Reading /\
   existsb isFatal (events (run HandleRequest ios pv)) = false /\
   existsb closesOrStops (events (run HandleRequest ios pv)) = false)
  \/
  (verdict (run HandleRequest ios pv) = Returned /\
   existsb isFatal (events (run HandleRequest ios pv)) = true /\
   exists t, events (run HandleRequest ios pv) = t ++ shutdownEvents /\
             existsb closesOrStops t = false).
Proof.
  induction ios as [| io ios IH]; intros pv.
  - left. repeat split.
  - rewrite run_cons.
    destruct (iteration_cases io pv)
      as [(V & _ & F & C) | (V & _ & _ & F & t & E & C)]; rewrite V.
    + cbv zeta. rewrite verdict_mk, events_mk.
      rewrite !existsb_app, F, C. simpl orb.
      destruct (IH (validator (iteration HandleRequest io pv)))
        as [(V' & F' & C') | (V' & F' & t' & E' & C')].
      * left. auto.
      * right. repeat split; auto.
        exists (events (iteration HandleRequest io pv) ++ t').
        rewrite E', app_assoc. split; [reflexivity |].
        rewrite existsb_app, C, C'. reflexivity.
    + right. rewrite verdict_mk, events_mk.
      repeat split; auto. exists t. auto.
Qed.

(** What an iteration leaves behind: after [io.EOF] nothing but the read;
    otherwise the validator as [HandleRequest] left it, the call of the
    handler on the message buffer and the write of its response. *)
Lemma iteration_effects io pv :
  (rd_err io = Some EOF ->
   iteration HandleRequest io pv =
     (Continue, pv, [EvReadMsg (rd_msg io) (Some EOF)])) /\
  (rd_err io <> Some EOF ->
   validator (iteration HandleRequest io pv) =
     snd (HandleRequest (rd_msg io) pv) /\
   In (EvHandleRequest (rd_msg io)
                       (fst (fst (HandleRequest (rd_msg io) pv)))
                       (handled HandleRequest io pv))
      (events (iteration HandleRequest io pv)) /\
   In (EvWriteMsg (fst (fst (HandleRequest (rd_msg io) pv))) (wr_err io))
      (events (iteration HandleRequest io pv))).
Proof.
  split; [apply iteration_EOF |].
  unfold iteration, handled, validator, events.
  destruct io as [msg rerr werr]; simpl.
  destruct (HandleRequest msg pv) as [[resp err] pv']; simpl.
  destruct rerr as [[| re] |]; simpl; intros NE; try congruence;
    destruct err as [[| | |] |]; destruct werr; simpl; auto 8.
Qed.

(** A run has returned exactly when one of its iterations, reached with the
    loop still reading, called the handler and got [ErrMustShutdown]. *)
Lemma run_returned_iff ios : forall pv,
  verdict (run HandleRequest ios pv) = Returned <->
  exists ios1 io ios2,
    ios = ios1 ++ io :: ios2 /\
    verdict (run HandleRequest ios1 pv) = Reading /\
    rd_err io <> Some EOF /\
    handled HandleRequest io (validator (run HandleRequest ios1 pv)) =
      Some ErrMustShutdown.
Proof.
  induction ios as [| io ios IH]; intros pv.
  - split; [discriminate |].
    intros (ios1 & io & ios2 & E & _). destruct ios1; discriminate E.
  - rewrite run_cons. split.
    + destruct (iteration_cases io pv)
        as [(V & _) | (V & NE & Hd & _)]; rewrite V.
      * cbv zeta. rewrite verdict_mk. intros R.
        apply IH in R. destruct R as (ios1 & io' & ios2 & E & V1 & NE & Hd).
        exists (io :: ios1), io', ios2. subst ios.
        rewrite run_cons, V. cbv zeta. rewrite verdict_mk, validator_mk.
        auto.
      * intros _. exists [], io, ios. auto.
    + intros (ios1 & io' & ios2 & E & V1 & NE & Hd).
      destruct ios1 as [| a ios1]; simpl in E; injection E as <- ->.
      * change (validator (run HandleRequest [] pv)) with pv in Hd.
        destruct (iteration_cases io pv)
          as [(_ & [E' | H'] & _) | (V & _)]; try congruence.
        rewrite V, verdict_mk. reflexivity.
      * rewrite run_cons in V1, Hd.
        destruct (verdict (iteration HandleRequest io pv));
          [| rewrite verdict_mk in V1; discriminate V1].
        cbv zeta in V1, Hd. rewrite verdict_mk in V1.
        rewrite validator_mk in Hd.
        cbv zeta. rewrite verdict_mk. apply IH.
        exists ios1, io', ios2. auto.
Qed.

(** C7.  [run] is the repetition of its loop body: over no iteration it is
    still reading, and over [io :: ios] it is the iteration on [io], then,
    unless that returned, the rest from the validator it left.  An iteration
    returns exactly when [HandleRequest] was called (the read did not end in
    [io.EOF]) and returned [ErrMustShutdown]; its trace then ends with the
    closing of the reader, the closing of the writer and [Stop], in this
    order and each once.  In every other case (an [io.EOF], another read
    failure, a write failure, any other error of the handler) it goes on to
    the next iteration and has closed and stopped nothing; after [io.EOF] it
    has done nothing but read, and otherwise it has called the handler on the
    message buffer, written its response and left the validator as the
    handler did.  Hence a [run] has returned exactly when one of its
    iterations, reached with the loop still reading, got [ErrMustShutdown]
    from the handler, which is exactly when its trace holds such a call; its
    trace then ends with the two closings and [Stop] and holds no other; a
    [run] that has not returned has closed and stopped nothing. *)
Theorem run_returns_only_on_MustShutdown
        (ios : list (IterIO Message)) (io : IterIO Message) (pv : SCFilePV) :
  run HandleRequest [] pv = (Reading, pv, []) /\
  run HandleRequest (io :: ios) pv =
    match verdict (iteration HandleRequest io pv) with
    | Return => (Returned, validator (iteration HandleRequest io pv),
                 events (iteration HandleRequest io pv))
    | Continue =>
        let r := run HandleRequest ios
                     (validator (iteration HandleRequest io pv)) in
        (verdict r, validator r,
         events (iteration HandleRequest io pv) ++ events r)
    end /\
  (verdict (iteration HandleRequest io pv) = Return <->
   rd_err io <> Some EOF /\ handled HandleRequest io pv = Some ErrMustShutdown) /\
  (verdict (iteration HandleRequest io pv) = Continue <->
   rd_err io = Some EOF \/ handled HandleRequest io pv <> Some ErrMustShutdown) /\
  (verdict (iteration HandleRequest io pv) = Return ->
   exists t, events (iteration HandleRequest io pv) = t ++ shutdownEvents /\
             existsb closesOrStops t = false) /\
  (verdict (iteration HandleRequest io pv) = Continue ->
   existsb closesOrStops (events (iteration HandleRequest io pv)) = false) /\
  (rd_err io = Some EOF ->
   iteration HandleRequest io pv =
     (Continue, pv, [EvReadMsg (rd_msg io) (Some EOF)])) /\
  (rd_err io <> Some EOF ->
   validator (iteration HandleRequest io pv) =
     snd (HandleRequest (rd_msg io) pv) /\
   In (EvHandleRequest (rd_msg io)
                       (fst (fst (HandleRequest (rd_msg io) pv)))
                       (handled HandleRequest io pv))
      (events (iteration HandleRequest io pv)) /\
   In (EvWriteMsg (fst (fst (HandleRequest (rd_msg io) pv))) (wr_err io))
      (events (iteration HandleRequest io pv))) /\
  (verdict (run HandleRequest ios pv) = Returned <->
   exists ios1 io' ios2,
     ios = ios1 ++ io' :: ios2 /\
     verdict (run HandleRequest ios1 pv) = Reading /\
     rd_err io' <> Some EOF /\
     handled HandleRequest io' (validator (run HandleRequest ios1 pv)) =
       Some ErrMustShutdown) /\
  (verdict (run HandleRequest ios pv) = Returned <->
   existsb isFatal (events (run HandleRequest ios pv)) = true) /\
  (verdict (run HandleRequest ios pv) = Returned ->
   exists t, events (run HandleRequest ios pv) = t ++ shutdownEvents /\
             existsb closesOrStops t = false) /\
  (verdict (run HandleRequest ios pv) = Reading ->
   existsb closesOrStops (events (run HandleRequest ios pv)) = false).
Proof.
  split; [reflexivity |].
  split; [apply run_cons |].
  split; [split |].
  { destruct (iteration_cases io pv) as [(V & _) | (_ & E & H & _)];
      [congruence | auto]. }
  { intros [E H].
    destruct (iteration_cases io pv) as [(_ & [E' | H'] & _) | (V & _)];
      congruence. }
  split; [split |].
  { destruct (iteration_cases io pv) as [(_ & D & _) | (V & _)]; congruence. }
  { intros D.
    destruct (iteration_cases io pv) as [(V & _) | (_ & E & H & _)];
      [exact V | destruct D; congruence]. }
  split.
  { destruct (iteration_cases io pv) as [(V & _) | (_ & _ & _ & _ & X)];
      [congruence | auto]. }
  split.
  { destruct (iteration_cases io pv) as [(_ & _ & _ & C) | (V & _)];
      congruence. }
  split; [apply iteration_effects |].
  split; [apply iteration_effects |].
  split; [apply run_returned_iff |].
  split; [split |].
  { destruct (run_cases ios pv) as [(V & _) | (_ & F & _)]; congruence. }
  { destruct (run_cases ios pv) as [(_ & F & _) | (V & _)]; congruence. }
  split.
  { destruct (run_cases ios pv) as [(V & _) | (_ & _ & X)]; [congruence | auto]. }
  { destruct (run_cases ios pv) as [(_ & _ & C) | (V & _)]; congruence. }
Qed.

(** C8, where the code departs from it.  A read that ends in [io.EOF] makes
    the loop go on without calling the handler.  A read that fails otherwise
    is logged, and then the message buffer is given to [HandleRequest] all
    the same, its response is written, the validator is left as the handler
    left it, and if the handler returns [ErrMustShutdown] the loop returns. *)
Theorem run_dispatches_after_failed_read
        (msg : Message) (e : string) (w : option IOError) (pv : SCFilePV) :
  iteration HandleRequest (mkIterIO msg (Some EOF) w) pv =
    (Continue, pv, [EvReadMsg msg (Some EOF)]) /\
  let r := iteration HandleRequest (mkIterIO msg (Some (IOFailure e)) w) pv in
  let h := HandleRequest msg pv in
  In (EvPrintf "[ERR] signctrl: couldn't read message: %v\n" [ArgIO (IOFailure e)])
     (events r) /\
  In (EvHandleRequest msg (fst (fst h)) (snd (fst h))) (events r) /\
  In (EvWriteMsg (fst (fst h)) w) (events r) /\
  validator r = snd h /\
  (snd (fst h) = Some ErrMustShutdown -> verdict r = Return).
Proof.
  split; [reflexivity |].
  unfold iteration, verdict, validator, events; simpl.
  destruct (HandleRequest msg pv) as [[resp err] pv']; simpl.
  destruct err as [[| | |] |]; destruct w; simpl;
    repeat split; auto; discriminate.
Qed.

End MessageLoopFacts.

(** The loop on six iterations: an end of stream, a request, an oversized
    frame, a request whose response cannot be written, the request on which
    the handler reports [ErrMustShutdown], and one the loop never reads. *)
Example run_sample :
  run sampleHandler
      [mkIterIO 0%nat (Some EOF) None;
       mkIterIO 7%nat None None;
       mkIterIO 0%nat (Some (IOFailure "message exceeds max size")) None;
       mkIterIO 8%nat None (Some (IOFailure "broken pipe"));
       mkIterIO 13%nat None None;
       mkIterIO 9%nat None None]
      samplePV
  = (Returned, samplePV,
     [EvReadMsg 0%nat (Some EOF);
      EvReadMsg 7%nat None;
      EvHandleRequest 7%nat (Some 7%nat) None;
      EvWriteMsg (Some 7%nat) None;
      EvReadMsg 0%nat (Some (IOFailure "message exceeds max size"));
      EvPrintf "[ERR] signctrl: couldn't read message: %v\n"
               [ArgIO (IOFailure "message exceeds max size")];
      EvHandleRequest 0%nat None (Some (ErrOther "empty request"));
      EvWriteMsg None None;
      EvPrintf "[ERR] signctrl: couldn't handle request: %v\n"
               [ArgErr (ErrOther "empty request")];
      EvReadMsg 8%nat None;
      EvHandleRequest 8%nat (Some 8%nat) None;
      EvWriteMsg (Some 8%nat) (Some (IOFailure "broken pipe"));
      EvPrintf "[ERR] signctrl: couldn't write message: %v\n"
               [ArgIO (IOFailure "broken pipe")];
      EvReadMsg 13%nat None;
      EvHandleRequest 13%nat None (Some ErrMustShutdown);
      EvWriteMsg None None;
      EvPrintf "[ERR] signctrl: couldn't handle request: %v\n"
               [ArgErr ErrMustShutdown]]
     ++ shutdownEvents).
Proof. reflexivity. Qed.

(** * Further properties of the state machine *)

(** ** Repetition *)

Lemma repeatM_add {A} (a b : nat) (c : M A) s :
  repeatM (a + b) c s =
  (result (repeatM a c s) ++ result (repeatM b c (after (repeatM a c s))),
   after (repeatM b c (after (repeatM a c s))),
   trace (repeatM a c s) ++ trace (repeatM b c (after (repeatM a c s)))).
Proof.
  revert s. induction a as [| a IH]; intros s.
  - simpl. unfold ret. proj_mk. simpl.
    destruct (repeatM b c s) as [[l s'] t]. reflexivity.
  - change (S a + b)%nat with (S (a + b)).
    rewrite !repeatM_S, IH. proj_mk. rewrite app_assoc. reflexivity.
Qed.

(** Misses at or past the threshold only count. *)
Lemma Missed_repeat_above n : forall s,
  counterLocked s = false ->
  GoInt.min_int <= threshold s <= missedInARow s ->
  missedInARow s + Z.of_nat n <= GoInt.max_int ->
  result (repeatM n Missed s) = repeat None n /\
  after (repeatM n Missed s) = set_missedInARow (missedInARow s + Z.of_nat n) s /\
  invocations MPromote (trace (repeatM n Missed s)) = 0%nat.
Proof.
  induction n as [| n IH]; intros s L H K.
  - simpl. unfold result, after, trace, ret; simpl.
    rewrite Z.add_0_r. destruct s; auto.
  - assert (C : missedInARow (counted s) = missedInARow s + 1).
    { simpl. apply GoIntFacts.wrap_succ. lia. }
    rewrite repeatM_S.
    rewrite (Missed_above s L) by (rewrite C; lia).
    proj_mk.
    destruct (IH (counted s)) as (R & A & T);
      [exact L | rewrite C; change (threshold (counted s)) with (threshold s); lia
      | rewrite C; lia |].
    rewrite R, A, invocations_app, T, C.
    repeat split.
    destruct s; unfold counted, set_missedInARow; simpl. f_equal. lia.
Qed.

(** ** What [Missed] returns *)

Lemma Missed_promote_invocations s :
  invocations MPromote (trace (Missed s)) =
  if negb (counterLocked s) && (missedInARow (counted s) =? threshold s)
  then 1%nat else 0%nat.
Proof.
  destruct (counterLocked s) eqn:L; simpl.
  - rewrite (Missed_locked s L). reflexivity.
  - destruct (Z.lt_trichotomy (missedInARow (counted s)) (threshold s))
      as [H | [H | H]].
    + rewrite (Missed_below s L H).
      replace (_ =? _) with false by (symmetry; apply Z.eqb_neq; simpl in *; lia).
      reflexivity.
    + destruct (Missed_at s L H) as (_ & _ & Mt). rewrite Mt.
      replace (_ =? _) with true by (symmetry; apply Z.eqb_eq; exact H).
      destruct (Z.eq_dec (rank s) 1) as [R | R].
      * rewrite (Promote_rank1 (counted s) R). reflexivity.
      * now destruct (Promote_other (counted s) R) as (_ & _ & Pt).
    + rewrite (Missed_above s L H).
      replace (_ =? _) with false by (symmetry; apply Z.eqb_neq; simpl in *; lia).
      reflexivity.
Qed.

(** X1.  The four results of [Missed], each with the receivers that give
    it: [ErrCounterLocked] exactly when the counter is locked;
    [ErrThresholdExceeded] exactly when it is unlocked, the incremented
    counter equals the threshold and the rank is not 1; [ErrMustShutdown]
    exactly when it is unlocked, the incremented counter equals the threshold
    and the rank is 1; nil exactly when it is unlocked and the incremented
    counter differs from the threshold.  No other error is returned, and
    [Promote] is entered (once) exactly in the two threshold cases. *)
Theorem Missed_result_characterised (s : BaseSignCtrled) :
  (result (Missed s) = Some ErrCounterLocked <-> counterLocked s = true) /\
  (result (Missed s) = Some ErrThresholdExceeded <->
   counterLocked s = false /\ missedInARow (counted s) = threshold s /\
   rank s <> 1) /\
  (result (Missed s) = Some ErrMustShutdown <->
   counterLocked s = false /\ missedInARow (counted s) = threshold s /\
   rank s = 1) /\
  (result (Missed s) = None <->
   counterLocked s = false /\ missedInARow (counted s) <> threshold s) /\
  (forall msg, result (Missed s) <> Some (ErrOther msg)) /\
  (invocations MPromote (trace (Missed s)) = 1%nat <->
   counterLocked s = false /\ missedInARow (counted s) = threshold s) /\
  (invocations MPromote (trace (Missed s)) = 0%nat <->
   counterLocked s = true \/ missedInARow (counted s) <> threshold s).
Proof.
  rewrite Missed_promote_invocations.
  destruct (Z.eqb_spec (missedInARow (counted s)) (threshold s)) as [E | E];
    destruct (Missed_spec s) as [L | L H | L H R | L H R | L H];
    rewrite L; cbn [negb andb];
    repeat split; intros; try discriminate; try congruence; try lia;
    repeat match goal with
           | X : _ /\ _ |- _ => destruct X
           | X : _ \/ _ |- _ => destruct X
           end;
    try discriminate; try congruence; try lia; auto.
Qed.

(** ** What the operations leave alone *)

Lemma exec_frame op s :
  threshold (after (exec op s)) = threshold s /\
  Logger (after (exec op s)) = Logger s.
Proof.
  rewrite exec_after.
  destruct op; cbv beta iota; try (split; reflexivity).
  - destruct (Missed_spec s); cbv zeta; try (split; reflexivity).
    unfold reset_state. destruct (0 <? _); split; reflexivity.
  - unfold reset_state. destruct (0 <? _); split; reflexivity.
  - rewrite Promote_after. unfold reset_state.
    destruct (rank s =? 1); [split; reflexivity |].
    destruct (0 <? _); split; reflexivity.
Qed.

(** X2.  The threshold and the logger are fixed at construction: no sequence
    of operations, setters included, changes either. *)
Theorem threshold_and_Logger_never_change (ops : list Op) (s : BaseSignCtrled) :
  threshold (execAll ops s) = threshold s /\
  Logger (execAll ops s) = Logger s.
Proof.
  revert s. induction ops as [| op ops IH]; intros s; [split; reflexivity |].
  simpl. destruct (IH (after (exec op s))) as (It & Il).
  destruct (exec_frame op s) as (Ft & Fl). split; congruence.
Qed.

Lemma Promote_ignores_lock_fields s :
  counterLocked (after (Promote s)) = counterLocked s /\
  currentHeight (after (Promote s)) = currentHeight s.
Proof.
  rewrite Promote_after. destruct (rank s =? 1); [split; reflexivity |].
  destruct (reset_state_fields (set_rank (GoInt.wrap (rank s - 1)) s))
    as (_ & _ & Fh & Fl & _).
  rewrite Fh, Fl. split; reflexivity.
Qed.

(** X3.  [Promote] neither consults nor changes the counter lock, and never
    touches [currentHeight]: on a locked receiver it does what it does on the
    unlocked one (the height skip is [Missed]'s own). *)
Theorem Promote_ignores_the_lock (b : bool) (s : BaseSignCtrled) :
  Promote (set_counterLocked b s) =
    (result (Promote s), set_counterLocked b (after (Promote s)),
     trace (Promote s)) /\
  counterLocked (after (Promote s)) = counterLocked s /\
  currentHeight (after (Promote s)) = currentHeight s.
Proof.
  split.
  - destruct s as [lg l h m t r im].
    cbv - [Z.ltb Z.eqb Z.add Z.sub GoInt.wrap].
    repeat match goal with
           | |- context [if ?c then _ else _] => destruct c
           end; reflexivity.
  - rewrite Promote_after. destruct (rank s =? 1); [split; reflexivity |].
    destruct (reset_state_fields (set_rank (GoInt.wrap (rank s - 1)) s))
      as (_ & _ & Fh & Fl & _).
    rewrite Fh, Fl. split; reflexivity.
Qed.

(** ** Misses in a row *)

(** X4.  Only misses in a row promote: after fewer misses than the
    threshold and a [Reset], as many misses again as the threshold less one
    all return nil, enter [Promote] never and leave the rank as it was. *)
Theorem Reset_restarts_the_count (s : BaseSignCtrled) (k n : nat) :
  missedInARow s = 0 ->
  counterLocked s = false ->
  threshold s = Z.of_nat (S n) ->
  threshold s <= GoInt.max_int ->
  (k <= n)%nat ->
  let before := repeatM k Missed s in
  let again := repeatM n Missed (after (Reset (after before))) in
  result before = repeat None k /\
  missedInARow (after (Reset (after before))) = 0 /\
  result again = repeat None n /\
  invocations MPromote (trace before ++ trace again) = 0%nat /\
  rank (after again) = rank s /\
  missedInARow (after again) = Z.of_nat n.
Proof.
  intros M0 L T Tmax K before again.
  destruct (Missed_repeat_below k s L) as (Hr & Ha & Ht); [lia | lia |].
  fold before in Hr, Ha, Ht.
  assert (R0 : after (Reset (after before)) = set_missedInARow 0 s).
  { rewrite Reset_after, Ha. unfold reset_state. simpl missedInARow.
    destruct (0 <? _) eqn:E.
    - destruct s; reflexivity.
    - apply Z.ltb_ge in E. destruct s; simpl in *. f_equal. lia. }
  subst again. rewrite R0.
  destruct (Missed_repeat_below n (set_missedInARow 0 s)) as (Hr' & Ha' & Ht');
    [exact L | simpl; lia | simpl; lia |].
  rewrite invocations_app, Ht, Ht', Hr', Ha'. repeat split; auto.
Qed.

Lemma Reset_restarts_the_count_witness :
  let s := set_counterLocked false (NewBaseSignCtrled None 3 2 None) in
  let before := repeatM 2 Missed s in
  let again := repeatM 2 Missed (after (Reset (after before))) in
  result before = repeat None 2 /\
  missedInARow (after (Reset (after before))) = 0 /\
  result again = repeat None 2 /\
  invocations MPromote (trace before ++ trace again) = 0%nat /\
  rank (after again) = rank s /\
  missedInARow (after again) = Z.of_nat 2.
Proof.
  apply (Reset_restarts_the_count
           (set_counterLocked false (NewBaseSignCtrled None 3 2 None)) 2 2);
    simpl; unfold GoInt.max_int; try reflexivity; lia.
Defined.

(** X5.  [LockCounter] does not clear the counter: on an unlocked receiver,
    [LockCounter], any number of [Missed] calls (each returns
    [ErrCounterLocked]) and [UnlockCounter] give back the receiver as it was,
    count included. *)
Theorem locked_interval_keeps_the_count (s : BaseSignCtrled) (j : nat) :
  counterLocked s = false ->
  let locked := after (LockCounter s) in
  let inside := repeatM j Missed locked in
  missedInARow locked = missedInARow s /\
  result inside = repeat (Some ErrCounterLocked) j /\
  after (UnlockCounter (after inside)) = s.
Proof.
  intros L locked inside. subst inside locked.
  rewrite LockCounter_after.
  rewrite (Missed_repeat_locked j (set_counterLocked true s) eq_refl). proj_mk.
  rewrite UnlockCounter_after.
  repeat split. destruct s; simpl in *. subst. reflexivity.
Qed.

Lemma locked_interval_keeps_the_count_witness :
  let s := execAll [OpUnlockCounter; OpMissed; OpMissed]
                   (NewBaseSignCtrled None 5 2 None) in
  let locked := after (LockCounter s) in
  let inside := repeatM 3 Missed locked in
  missedInARow locked = missedInARow s /\
  result inside = repeat (Some ErrCounterLocked) 3 /\
  after (UnlockCounter (after inside)) = s.
Proof.
  apply (locked_interval_keeps_the_count
           (execAll [OpUnlockCounter; OpMissed; OpMissed]
                    (NewBaseSignCtrled None 5 2 None)) 3).
  reflexivity.
Defined.

(** ** Rounds of misses *)

Lemma Missed_promoting s :
  counterLocked s = false ->
  missedInARow (counted s) = threshold s ->
  rank s <> 1 ->
  result (Missed s) = Some ErrThresholdExceeded /\
  after (Missed s) =
    (let p := reset_state (set_rank (GoInt.wrap (rank s - 1)) (counted s)) in
     set_currentHeight (GoInt.wrap (currentHeight p + 1)) p) /\
  invocations MPromote (trace (Missed s)) = 1%nat.
Proof.
  intros L H R.
  destruct (Missed_at s L H) as (Mr & Ma & Mt).
  destruct (Promote_other (counted s) R) as (Pr & Pa & Pt).
  rewrite Pr in Mr, Ma. rewrite Pa in Ma. rewrite Pt in Mt. auto.
Qed.

Lemma Missed_shutting s :
  counterLocked s = false ->
  missedInARow (counted s) = threshold s ->
  rank s = 1 ->
  result (Missed s) = Some ErrMustShutdown /\
  after (Missed s) = counted s /\
  invocations MPromote (trace (Missed s)) = 1%nat.
Proof.
  intros L H R.
  destruct (Missed_at s L H) as (Mr & Ma & Mt).
  rewrite (Promote_rank1 (counted s) R) in Mr, Ma, Mt. auto.
Qed.

Lemma repeatM_1 {A} (c : M A) s :
  repeatM 1 c s = ([result (c s)], after (c s), trace (c s)).
Proof.
  rewrite repeatM_S. simpl. unfold ret. proj_mk. rewrite app_nil_r. reflexivity.
Qed.

(** One round: as many misses as the threshold, from a counter at 0 and a
    rank above 1. *)
Lemma Missed_round n s :
  missedInARow s = 0 ->
  counterLocked s = false ->
  threshold s = Z.of_nat (S n) ->
  threshold s <= GoInt.max_int ->
  1 < rank s <= GoInt.max_int ->
  GoInt.min_int <= currentHeight s < GoInt.max_int ->
  result (repeatM (n + 1) Missed s) = promotionRound n /\
  after (repeatM (n + 1) Missed s) =
    set_currentHeight (currentHeight s + 1) (set_rank (rank s - 1) s) /\
  invocations MPromote (trace (repeatM (n + 1) Missed s)) = 1%nat.
Proof.
  intros M0 L T Tmax R Hh.
  destruct (Missed_repeat_below n s L) as (Hr & Ha & Ht); [lia | lia |].
  rewrite repeatM_add, repeatM_1. proj_mk. rewrite Hr, Ha, invocations_app, Ht.
  set (s1 := set_missedInARow (missedInARow s + Z.of_nat n) s).
  assert (C : missedInARow (counted s1) = threshold s1).
  { simpl. rewrite M0, T. rewrite GoIntFacts.wrap_succ;
      unfold GoInt.min_int, GoInt.max_int in *; lia. }
  destruct (Missed_promoting s1 L C) as (Mr & Ma & Mt); [simpl; lia |].
  rewrite Mr, Ma, Mt. repeat split.
  cbv zeta. unfold reset_state.
  change (missedInARow (set_rank ?r ?x)) with (missedInARow x).
  rewrite C. change (threshold s1) with (threshold s). rewrite T.
  replace (0 <? Z.of_nat (S n)) with true by (symmetry; apply Z.ltb_lt; lia).
  assert (W : GoInt.wrap (rank s - 1) = rank s - 1).
  { apply GoIntFacts.wrap_pred. unfold GoInt.min_int, GoInt.max_int in *. lia. }
  assert (W' : GoInt.wrap (currentHeight s + 1) = currentHeight s + 1).
  { apply GoIntFacts.wrap_succ. lia. }
  destruct s as [lg l h m t r im]; simpl in *. subst m.
  unfold set_currentHeight, set_rank; simpl. rewrite W, W'. reflexivity.
Qed.

(** [k] rounds, one after the other. *)
Lemma Missed_rounds (n k : nat) : forall s : BaseSignCtrled,
  missedInARow s = 0 ->
  counterLocked s = false ->
  threshold s = Z.of_nat (S n) ->
  threshold s <= GoInt.max_int ->
  Z.of_nat k < rank s <= GoInt.max_int ->
  GoInt.min_int <= currentHeight s ->
  currentHeight s + Z.of_nat k <= GoInt.max_int ->
  result (repeatM (k * (n + 1)) Missed s) = List.concat (repeat (promotionRound n) k) /\
  after (repeatM (k * (n + 1)) Missed s) =
    set_currentHeight (currentHeight s + Z.of_nat k)
                      (set_rank (rank s - Z.of_nat k) s) /\
  invocations MPromote (trace (repeatM (k * (n + 1)) Missed s)) = k.
Proof.
  induction k as [| k IH]; intros s M0 L T Tmax R Hmin Hmax.
  - simpl. unfold ret. proj_mk. repeat split.
    destruct s; unfold set_currentHeight, set_rank; simpl. f_equal; lia.
  - change (S k * (n + 1))%nat with ((n + 1) + k * (n + 1))%nat.
    rewrite repeatM_add. proj_mk.
    destruct (Missed_round n s M0 L T Tmax) as (Rr & Ra & Rt); [lia | lia |].
    rewrite Rr, Ra, invocations_app, Rt.
    set (s1 := set_currentHeight (currentHeight s + 1) (set_rank (rank s - 1) s)).
    destruct (IH s1) as (Ir & Ia & It); try assumption;
      try (subst s1; simpl; lia).
    rewrite Ir, Ia, It. repeat split.
    destruct s; subst s1; unfold set_currentHeight, set_rank; simpl.
    f_equal; lia.
Qed.

(** X6.  [k] rounds of [threshold] misses, from a counter at 0 and a rank
    above [k]: each round returns nil but for its last call, which
    returns [ErrThresholdExceeded]; together they enter [Promote] [k] times,
    lower the rank by [k], raise [currentHeight] by [k] and change nothing
    else. *)
Theorem Missed_rounds_count_down (n k : nat) : forall s : BaseSignCtrled,
  missedInARow s = 0 ->
  counterLocked s = false ->
  threshold s = Z.of_nat (S n) ->
  threshold s <= GoInt.max_int ->
  Z.of_nat k < rank s <= GoInt.max_int ->
  GoInt.min_int <= currentHeight s ->
  currentHeight s + Z.of_nat k <= GoInt.max_int ->
  result (repeatM (k * (n + 1)) Missed s) = List.concat (repeat (promotionRound n) k) /\
  after (repeatM (k * (n + 1)) Missed s) =
    set_currentHeight (currentHeight s + Z.of_nat k)
                      (set_rank (rank s - Z.of_nat k) s) /\
  invocations MPromote (trace (repeatM (k * (n + 1)) Missed s)) = k.
Proof. exact (Missed_rounds n k). Qed.

Lemma Missed_rounds_count_down_witness :
  let s := set_counterLocked false (NewBaseSignCtrled None 2 4 None) in
  result (repeatM (3 * (1 + 1)) Missed s) = List.concat (repeat (promotionRound 1) 3) /\
  after (repeatM (3 * (1 + 1)) Missed s) =
    set_currentHeight (currentHeight s + Z.of_nat 3)
                      (set_rank (rank s - Z.of_nat 3) s) /\
  invocations MPromote (trace (repeatM (3 * (1 + 1)) Missed s)) = 3%nat.
Proof.
  apply (Missed_rounds_count_down 1 3
           (set_counterLocked false (NewBaseSignCtrled None 2 4 None)));
    simpl; unfold GoInt.min_int, GoInt.max_int; try reflexivity; lia.
Defined.

(** The round at rank 1: the last miss reports [ErrMustShutdown] and the
    counter stays at the threshold. *)
Lemma Missed_last_round n s :
  missedInARow s = 0 ->
  counterLocked s = false ->
  threshold s = Z.of_nat (S n) ->
  threshold s <= GoInt.max_int ->
  rank s = 1 ->
  result (repeatM (n + 1) Missed s) = shutdownRound n /\
  after (repeatM (n + 1) Missed s) = set_missedInARow (threshold s) s /\
  invocations MPromote (trace (repeatM (n + 1) Missed s)) = 1%nat.
Proof.
  intros M0 L T Tmax R.
  destruct (Missed_repeat_below n s L) as (Hr & Ha & Ht); [lia | lia |].
  rewrite repeatM_add, repeatM_1. proj_mk. rewrite Hr, Ha, invocations_app, Ht.
  set (s1 := set_missedInARow (missedInARow s + Z.of_nat n) s).
  assert (C : missedInARow (counted s1) = threshold s1).
  { simpl. rewrite M0, T. rewrite GoIntFacts.wrap_succ;
      unfold GoInt.min_int, GoInt.max_int in *; lia. }
  destruct (Missed_shutting s1 L C R) as (Mr & Ma & Mt).
  rewrite Mr, Ma, Mt. repeat split.
  unfold counted.
  change (GoInt.wrap (missedInARow s1 + 1)) with (missedInARow (counted s1)).
  rewrite C. destruct s; reflexivity.
Qed.

(** X7.  The misses a validator outlives: from a counter at 0 and rank
    [k + 1], the first [ErrMustShutdown] comes with miss number
    [(k + 1) * threshold] in a row and no sooner; the [k] rounds before it
    end in [ErrThresholdExceeded], and it leaves rank 1, the counter at the
    threshold and [currentHeight] raised by [k]. *)
Theorem Missed_shuts_down_after_rank_rounds (n k : nat) (s : BaseSignCtrled) :
  missedInARow s = 0 ->
  counterLocked s = false ->
  threshold s = Z.of_nat (S n) ->
  threshold s <= GoInt.max_int ->
  rank s = Z.of_nat (S k) ->
  rank s <= GoInt.max_int ->
  GoInt.min_int <= currentHeight s ->
  currentHeight s + Z.of_nat k <= GoInt.max_int ->
  let r := repeatM (k * (n + 1) + (n + 1)) Missed s in
  result r = List.concat (repeat (promotionRound n) k) ++ shutdownRound n /\
  ~ In (Some ErrMustShutdown) (removelast (result r)) /\
  rank (after r) = 1 /\
  missedInARow (after r) = threshold s /\
  currentHeight (after r) = currentHeight s + Z.of_nat k.
Proof.
  intros M0 L T Tmax R Rmax Hmin Hmax r. subst r.
  rewrite repeatM_add. proj_mk.
  destruct (Missed_rounds n k s) as (Cr & Ca & _);
    try assumption; [lia |].
  rewrite Cr, Ca.
  set (s1 := set_currentHeight (currentHeight s + Z.of_nat k)
                               (set_rank (rank s - Z.of_nat k) s)).
  destruct (Missed_last_round n s1) as (Lr & La & _);
    try assumption; [subst s1; simpl; lia |].
  rewrite Lr, La. repeat split; try (subst s1; simpl; lia).
  unfold shutdownRound. rewrite app_assoc, removelast_last.
  intros I. apply in_app_or in I. destruct I as [I | I].
  - apply in_concat in I. destruct I as (l & Il & I).
    apply repeat_spec in Il. subst l. unfold promotionRound in I.
    apply in_app_or in I. destruct I as [I | [I | []]]; [| discriminate].
    apply repeat_spec in I. discriminate.
  - apply repeat_spec in I. discriminate.
Qed.

Lemma Missed_shuts_down_after_rank_rounds_witness :
  let s := set_counterLocked false (NewBaseSignCtrled None 2 3 None) in
  let r := repeatM (2 * (1 + 1) + (1 + 1)) Missed s in
  result r = List.concat (repeat (promotionRound 1) 2) ++ shutdownRound 1 /\
  ~ In (Some ErrMustShutdown) (removelast (result r)) /\
  rank (after r) = 1 /\
  missedInARow (after r) = threshold s /\
  currentHeight (after r) = currentHeight s + Z.of_nat 2.
Proof.
  apply (Missed_shuts_down_after_rank_rounds 1 2
           (set_counterLocked false (NewBaseSignCtrled None 2 3 None)));
    simpl; unfold GoInt.min_int, GoInt.max_int; try reflexivity; lia.
Defined.

(** ** Past the threshold *)

(** X8.  [ErrMustShutdown] is reported once: after the [Missed] call that
    returns it, further [Missed] calls (as long as the counter fits an [int])
    return nil, never enter [Promote] and just count on past the threshold,
    with the rank left at 1. *)
Theorem Missed_is_silent_after_MustShutdown (s : BaseSignCtrled) (n : nat) :
  result (Missed s) = Some ErrMustShutdown ->
  GoInt.min_int <= threshold s ->
  threshold s + Z.of_nat n <= GoInt.max_int ->
  let r := repeatM n Missed (after (Missed s)) in
  result r = repeat None n /\
  invocations MPromote (trace r) = 0%nat /\
  missedInARow (after r) = threshold s + Z.of_nat n /\
  rank (after r) = 1.
Proof.
  intros E Tmin Tmax r. subst r. revert E.
  destruct (Missed_spec s) as [L | L H | L H R | L H R | L H]; try discriminate.
  intros _.
  destruct (Missed_repeat_above n (counted s)) as (Rr & Ra & Rt);
    [exact L | change (threshold (counted s)) with (threshold s); lia | lia |].
  rewrite Rr, Ra, Rt, H. repeat split. simpl. exact R.
Qed.

Lemma Missed_is_silent_after_MustShutdown_witness :
  let s := execAll [OpUnlockCounter; OpMissed] (NewBaseSignCtrled None 2 1 None) in
  let r := repeatM 5 Missed (after (Missed s)) in
  result r = repeat None 5 /\
  invocations MPromote (trace r) = 0%nat /\
  missedInARow (after r) = threshold s + Z.of_nat 5 /\
  rank (after r) = 1.
Proof.
  apply (Missed_is_silent_after_MustShutdown
           (execAll [OpUnlockCounter; OpMissed] (NewBaseSignCtrled None 2 1 None)) 5);
    [reflexivity | vm_compute; discriminate | vm_compute; discriminate].
Defined.

(** X9.  A threshold of 0 or less switches promotion off: on the validator
    [NewBaseSignCtrled] makes with it, once unlocked, every [Missed] call
    (as long as the counter fits an [int]) returns nil, [Promote] is never
    entered and the rank stays what it was, whatever it is. *)
Theorem nonpositive_threshold_never_promotes
        lg (thr rk : Z) im (n : nat) :
  GoInt.min_int <= thr <= 0 ->
  Z.of_nat n <= GoInt.max_int ->
  let s := after (UnlockCounter (NewBaseSignCtrled lg thr rk im)) in
  let r := repeatM n Missed s in
  result r = repeat None n /\
  invocations MPromote (trace r) = 0%nat /\
  rank (after r) = rk /\
  missedInARow (after r) = Z.of_nat n.
Proof.
  intros T N s r. subst r s. rewrite UnlockCounter_after.
  destruct (Missed_repeat_above n
              (set_counterLocked false (NewBaseSignCtrled lg thr rk im)))
    as (Rr & Ra & Rt); [reflexivity | simpl; lia | simpl; lia |].
  rewrite Rr, Ra, Rt. repeat split.
Qed.

Lemma nonpositive_threshold_never_promotes_witness :
  let s := after (UnlockCounter (NewBaseSignCtrled None 0 2 None)) in
  let r := repeatM 4 Missed s in
  result r = repeat None 4 /\
  invocations MPromote (trace r) = 0%nat /\
  rank (after r) = 2 /\
  missedInARow (after r) = Z.of_nat 4.
Proof.
  apply (nonpositive_threshold_never_promotes None 0 2 None 4);
    unfold GoInt.min_int, GoInt.max_int; lia.
Defined.

(** X10.  With a threshold of 2 or more, no two [Missed] calls in a row
    promote: the call after one that returned [ErrThresholdExceeded] returns
    nil and leaves the counter at 1. *)
Theorem Missed_after_promotion_only_counts (s : BaseSignCtrled) :
  2 <= threshold s <= GoInt.max_int ->
  result (Missed s) = Some ErrThresholdExceeded ->
  result (Missed (after (Missed s))) = None /\
  missedInARow (after (Missed (after (Missed s)))) = 1 /\
  rank (after (Missed (after (Missed s)))) = rank (after (Missed s)).
Proof.
  intros T E. revert E.
  destruct (Missed_spec s) as [L | L H | L H R | L H R | L H]; try discriminate.
  intros _. cbv zeta.
  set (p := reset_state (set_rank (GoInt.wrap (rank s - 1)) (counted s))).
  set (s' := set_currentHeight (GoInt.wrap (currentHeight p + 1)) p).
  destruct (reset_state_fields (set_rank (GoInt.wrap (rank s - 1)) (counted s)))
    as (Ft & Fr & Fh & Fl & Fi & Fm).
  fold p in Ft, Fr, Fh, Fl, Fi, Fm.
  assert (M0 : missedInARow s' = 0).
  { subst s'. change (missedInARow (set_currentHeight ?h ?x)) with (missedInARow x).
    rewrite Fm. change (missedInARow (set_rank ?r ?x)) with (missedInARow x). lia. }
  assert (L' : counterLocked s' = false).
  { subst s'. change (counterLocked (set_currentHeight ?h ?x)) with (counterLocked x).
    rewrite Fl. exact L. }
  assert (T' : threshold s' = threshold s).
  { subst s'. change (threshold (set_currentHeight ?h ?x)) with (threshold x).
    rewrite Ft. reflexivity. }
  clearbody s'.
  assert (C : missedInARow (counted s') = 1).
  { simpl. rewrite M0. reflexivity. }
  rewrite (Missed_below s' L') by (rewrite C, T'; lia).
  proj_mk. repeat split; auto.
Qed.

Lemma Missed_after_promotion_only_counts_witness :
  let s := execAll [OpUnlockCounter; OpMissed] (NewBaseSignCtrled None 2 3 None) in
  result (Missed (after (Missed s))) = None /\
  missedInARow (after (Missed (after (Missed s)))) = 1 /\
  rank (after (Missed (after (Missed s)))) = rank (after (Missed s)).
Proof.
  apply (Missed_after_promotion_only_counts
           (execAll [OpUnlockCounter; OpMissed] (NewBaseSignCtrled None 2 3 None)));
    [vm_compute; split; discriminate | reflexivity].
Defined.

(** ** Rank and height over sequences of operations *)

Lemma exec_below_rank_1 op s :
  isSetRank op = false ->
  GoInt.min_int < rank s <= 0 ->
  rank s - 1 <= rank (after (exec op s)) <= rank s.
Proof.
  intros NS R.
  assert (W : GoInt.wrap (rank s - 1) = rank s - 1).
  { apply GoIntFacts.wrap_pred. unfold GoInt.min_int, GoInt.max_int in *. lia. }
  rewrite exec_after.
  destruct op; try discriminate NS; cbv beta iota;
    try change (rank (set_counterLocked ?b ?x)) with (rank x);
    try change (rank (set_currentHeight ?b ?x)) with (rank x);
    try lia.
  - destruct (Missed_spec s) as [L | L H | L H Q | L H Q | L H];
      try (change (rank (counted s)) with (rank s); lia).
    cbv zeta. change (rank (set_currentHeight ?h ?x)) with (rank x).
    destruct (reset_state_fields (set_rank (GoInt.wrap (rank s - 1)) (counted s)))
      as (_ & Fr & _).
    rewrite Fr. simpl. rewrite W. lia.
  - destruct (reset_state_fields s) as (_ & Fr & _). rewrite Fr. lia.
  - rewrite Promote_after. destruct (Z.eqb_spec (rank s) 1) as [Q | Q]; [lia |].
    destruct (reset_state_fields (set_rank (GoInt.wrap (rank s - 1)) s))
      as (_ & Fr & _).
    rewrite Fr. simpl. rewrite W. lia.
Qed.

Lemma execAll_below_rank_1 ops : forall s,
  forallb (fun op => negb (isSetRank op)) ops = true ->
  rank s <= 0 ->
  GoInt.min_int + Z.of_nat (List.length ops) < rank s ->
  rank s - Z.of_nat (List.length ops) <= rank (execAll ops s) <= rank s.
Proof.
  induction ops as [| op ops IH]; intros s NS R K.
  - simpl. lia.
  - simpl in NS. apply andb_prop in NS. destruct NS as [N1 N2].
    apply negb_true_iff in N1.
    simpl List.length in *. simpl execAll.
    pose proof (exec_below_rank_1 op s N1 ltac:(lia)) as S1.
    specialize (IH (after (exec op s)) N2 ltac:(lia) ltac:(lia)). lia.
Qed.

(** X11.  Rank 1 is the only rank that shuts down, also from below: a
    validator whose rank is 0 or less is promoted on and on.  After any
    operations other than [SetRank] (fewer than would wrap the rank around)
    its rank is no higher than before, [Promote] succeeds and [Missed] does
    not return [ErrMustShutdown]. *)
Theorem rank_below_1_never_shuts_down (ops : list Op) (s : BaseSignCtrled) :
  forallb (fun op => negb (isSetRank op)) ops = true ->
  rank s <= 0 ->
  GoInt.min_int + Z.of_nat (List.length ops) < rank s ->
  rank (execAll ops s) <= rank s /\
  result (Promote (execAll ops s)) = None /\
  rank (after (Promote (execAll ops s))) = rank (execAll ops s) - 1 /\
  result (Missed (execAll ops s)) <> Some ErrMustShutdown.
Proof.
  intros NS R K.
  pose proof (execAll_below_rank_1 ops s NS R K) as B.
  assert (Q : rank (execAll ops s) <> 1) by lia.
  destruct (Promote_other _ Q) as (Pr & Pa & _).
  repeat split; try lia; auto.
  - rewrite Pa.
    destruct (reset_state_fields
                (set_rank (GoInt.wrap (rank (execAll ops s) - 1)) (execAll ops s)))
      as (_ & Fr & _).
    rewrite Fr. simpl. apply GoIntFacts.wrap_pred.
    unfold GoInt.min_int, GoInt.max_int in *. lia.
  - destruct (Missed_spec (execAll ops s)); try discriminate. lia.
Qed.

Lemma rank_below_1_never_shuts_down_witness :
  let s := set_counterLocked false (NewBaseSignCtrled None 2 0 None) in
  let ops := [OpMissed; OpMissed; OpPromote; OpMissed] in
  rank (execAll ops s) <= rank s /\
  result (Promote (execAll ops s)) = None /\
  rank (after (Promote (execAll ops s))) = rank (execAll ops s) - 1 /\
  result (Missed (execAll ops s)) <> Some ErrMustShutdown.
Proof.
  apply (rank_below_1_never_shuts_down
           [OpMissed; OpMissed; OpPromote; OpMissed]
           (set_counterLocked false (NewBaseSignCtrled None 2 0 None)));
    [reflexivity | simpl; lia | simpl; unfold GoInt.min_int; lia].
Defined.

Lemma exec_raises_height_by_at_most_1 op s :
  isSetCurrentHeight op = false ->
  GoInt.min_int <= currentHeight s < GoInt.max_int ->
  currentHeight s <= currentHeight (after (exec op s)) <= currentHeight s + 1.
Proof.
  intros NS B.
  assert (W : GoInt.wrap (currentHeight s + 1) = currentHeight s + 1)
    by (apply GoIntFacts.wrap_succ; lia).
  rewrite exec_after.
  destruct op; try discriminate NS; cbv beta iota;
    try change (currentHeight (set_counterLocked ?b ?x)) with (currentHeight x);
    try change (currentHeight (set_rank ?b ?x)) with (currentHeight x);
    try lia.
  - destruct (Missed_spec s) as [L | L H | L H Q | L H Q | L H];
      try (change (currentHeight (counted s)) with (currentHeight s); lia).
    cbv zeta.
    destruct (reset_state_fields (set_rank (GoInt.wrap (rank s - 1)) (counted s)))
      as (_ & _ & Fh & _).
    simpl currentHeight at 1. rewrite Fh. simpl. lia.
  - destruct (reset_state_fields s) as (_ & _ & Fh & _). rewrite Fh. lia.
  - destruct (Promote_ignores_lock_fields s) as (_ & Fh). rewrite Fh. lia.
Qed.

(** X12.  Apart from [SetCurrentHeight], nothing lowers [currentHeight],
    and no operation raises it by more than 1: over any sequence of other
    operations (short of wrapping around) the height ends between where it
    was and that plus the number of operations. *)
Theorem currentHeight_never_decreases (ops : list Op) : forall s : BaseSignCtrled,
  forallb (fun op => negb (isSetCurrentHeight op)) ops = true ->
  GoInt.min_int <= currentHeight s ->
  currentHeight s + Z.of_nat (List.length ops) <= GoInt.max_int ->
  currentHeight s <= currentHeight (execAll ops s)
                  <= currentHeight s + Z.of_nat (List.length ops).
Proof.
  induction ops as [| op ops IH]; intros s NS Hmin Hmax.
  - simpl. lia.
  - simpl in NS. apply andb_prop in NS. destruct NS as [N1 N2].
    apply negb_true_iff in N1.
    simpl List.length in *. simpl execAll.
    pose proof (exec_raises_height_by_at_most_1 op s N1 ltac:(lia)) as S1.
    specialize (IH (after (exec op s)) N2 ltac:(lia) ltac:(lia)). lia.
Qed.

Lemma currentHeight_never_decreases_witness :
  let s := set_counterLocked false (NewBaseSignCtrled None 2 3 None) in
  let ops := [OpMissed; OpMissed; OpPromote; OpSetRank 7; OpMissed; OpMissed] in
  currentHeight s <= currentHeight (execAll ops s)
                  <= currentHeight s + Z.of_nat (List.length ops).
Proof.
  apply (currentHeight_never_decreases
           [OpMissed; OpMissed; OpPromote; OpSetRank 7; OpMissed; OpMissed]
           (set_counterLocked false (NewBaseSignCtrled None 2 3 None)));
    [reflexivity | simpl; unfold GoInt.min_int; lia
     | simpl; unfold GoInt.max_int; lia].
Defined.

Lemma exec_keeps_height_plus_rank op s :
  observing op = true ->
  1 <= rank s <= GoInt.max_int ->
  GoInt.min_int <= currentHeight s ->
  currentHeight s + rank s - 1 <= GoInt.max_int ->
  currentHeight (after (exec op s)) + rank (after (exec op s)) =
    currentHeight s + rank s /\
  1 <= rank (after (exec op s)) <= rank s.
Proof.
  intros O R Hmin Hmax.
  rewrite exec_after.
  destruct op; try discriminate O; cbv beta iota;
    try change (currentHeight (set_counterLocked ?b ?x)) with (currentHeight x);
    try change (rank (set_counterLocked ?b ?x)) with (rank x);
    try lia.
  - destruct (Missed_spec s) as [L | L H | L H Q | L H Q | L H];
      try (change (currentHeight (counted s)) with (currentHeight s);
           change (rank (counted s)) with (rank s); lia).
    cbv zeta.
    destruct (reset_state_fields (set_rank (GoInt.wrap (rank s - 1)) (counted s)))
      as (_ & Fr & Fh & _).
    simpl currentHeight at 1.
    change (rank (set_currentHeight ?h ?x)) with (rank x).
    rewrite Fh, Fr. simpl.
    rewrite GoIntFacts.wrap_pred, GoIntFacts.wrap_succ;
      unfold GoInt.min_int, GoInt.max_int in *; lia.
  - destruct (reset_state_fields s) as (_ & Fr & Fh & _). rewrite Fr, Fh. lia.
Qed.

(** X13.  Every promotion that [Missed] makes moves the validator one rank
    down and one height up: from a rank of 1 or more, over any sequence of
    operations other than the two setters and a direct [Promote],
    [currentHeight + rank] stays what it was, with the rank still 1 or more;
    so the height never advances by more than [rank - 1]. *)
Theorem height_plus_rank_is_conserved (ops : list Op) : forall s : BaseSignCtrled,
  forallb observing ops = true ->
  1 <= rank s <= GoInt.max_int ->
  GoInt.min_int <= currentHeight s ->
  currentHeight s + rank s - 1 <= GoInt.max_int ->
  currentHeight (execAll ops s) + rank (execAll ops s) =
    currentHeight s + rank s /\
  1 <= rank (execAll ops s) <= rank s /\
  currentHeight s <= currentHeight (execAll ops s) <= currentHeight s + rank s - 1.
Proof.
  induction ops as [| op ops IH]; intros s O R Hmin Hmax.
  - simpl. lia.
  - simpl in O. apply andb_prop in O. destruct O as [O1 O2]. simpl execAll.
    destruct (exec_keeps_height_plus_rank op s O1 R Hmin Hmax) as (E & R').
    destruct (IH (after (exec op s)) O2) as (E' & R'' & H''); lia.
Qed.

Lemma height_plus_rank_is_conserved_witness :
  let s := set_counterLocked false (NewBaseSignCtrled None 2 3 None) in
  let ops := [OpMissed; OpMissed; OpReset; OpMissed; OpLockCounter; OpMissed;
              OpUnlockCounter; OpMissed; OpMissed] in
  currentHeight (execAll ops s) + rank (execAll ops s) =
    currentHeight s + rank s /\
  1 <= rank (execAll ops s) <= rank s /\
  currentHeight s <= currentHeight (execAll ops s) <= currentHeight s + rank s - 1.
Proof.
  apply (height_plus_rank_is_conserved
           [OpMissed; OpMissed; OpReset; OpMissed; OpLockCounter; OpMissed;
            OpUnlockCounter; OpMissed; OpMissed]
           (set_counterLocked false (NewBaseSignCtrled None 2 3 None)));
    [reflexivity | simpl; unfold GoInt.max_int; lia
     | simpl; unfold GoInt.min_int; lia | simpl; unfold GoInt.max_int; lia].
Defined.

(** ** The lock *)

Lemma exec_keeps_lock op s :
  isLockOp op = false ->
  counterLocked (after (exec op s)) = counterLocked s.
Proof.
  intros NL. rewrite exec_after.
  destruct op; try discriminate NL; cbv beta iota; try reflexivity.
  - destruct (Missed_spec s); try reflexivity. cbv zeta.
    destruct (reset_state_fields (set_rank (GoInt.wrap (rank s - 1)) (counted s)))
      as (_ & _ & _ & Fl & _).
    change (counterLocked (set_currentHeight ?h ?x)) with (counterLocked x).
    rewrite Fl. reflexivity.
  - now destruct (reset_state_fields s) as (_ & _ & _ & Fl & _).
  - now destruct (Promote_ignores_lock_fields s) as (Fl & _).
Qed.

(** X19.  Only [LockCounter] and [UnlockCounter] move the lock: any
    sequence of other operations, promotions and setters included, leaves
    [counterLocked] as it was; on a locked validator every [Missed] call of
    such a sequence is therefore refused. *)
Theorem only_lock_operations_move_the_lock (ops : list Op) :
  forall s : BaseSignCtrled,
  forallb (fun op => negb (isLockOp op)) ops = true ->
  counterLocked (execAll ops s) = counterLocked s /\
  (counterLocked s = true ->
   result (Missed (execAll ops s)) = Some ErrCounterLocked).
Proof.
  induction ops as [| op ops IH]; intros s NL.
  - split; [reflexivity |]. intros L. simpl. now rewrite (Missed_locked s L).
  - simpl in NL. apply andb_prop in NL. destruct NL as [N1 N2].
    apply negb_true_iff in N1. simpl execAll.
    destruct (IH (after (exec op s)) N2) as (E & M).
    rewrite (exec_keeps_lock op s N1) in E, M. auto.
Qed.

Lemma only_lock_operations_move_the_lock_witness :
  let s := NewBaseSignCtrled None 2 3 None in
  let ops := [OpMissed; OpPromote; OpSetRank 4; OpReset; OpSetCurrentHeight 9] in
  counterLocked (execAll ops s) = counterLocked s /\
  (counterLocked s = true ->
   result (Missed (execAll ops s)) = Some ErrCounterLocked).
Proof.
  apply (only_lock_operations_move_the_lock
           [OpMissed; OpPromote; OpSetRank 4; OpReset; OpSetCurrentHeight 9]
           (NewBaseSignCtrled None 2 3 None)).
  reflexivity.
Defined.

(** * Further properties of the message loop *)

Section MessageLoopMore.

Context {Message : Type}.
Variable HandleRequest :
  Message -> SCFilePV -> option Message * error * SCFilePV.

(** X14.  Iterations compose, and nothing follows the return: a [run] over
    [ios1 ++ ios2] that returns within [ios1] is the [run] over [ios1], with
    no event for [ios2]; one that is still reading after [ios1] goes on over
    [ios2] from the validator the first part left. *)
Theorem run_app (ios1 ios2 : list (IterIO Message)) (pv : SCFilePV) :
  run HandleRequest (ios1 ++ ios2) pv =
  match verdict (run HandleRequest ios1 pv) with
  | Returned => run HandleRequest ios1 pv
  | Reading =>
      let r1 := run HandleRequest ios1 pv in
      let r2 := run HandleRequest ios2 (validator r1) in
      (verdict r2, validator r2, events r1 ++ events r2)
  end.
Proof.
  revert pv. induction ios1 as [| io ios1 IH]; intros pv.
  - unfold verdict, validator, events; simpl.
    destruct (run HandleRequest ios2 pv) as [[o pv'] t]. reflexivity.
  - change ((io :: ios1) ++ ios2) with (io :: (ios1 ++ ios2)).
    rewrite !run_cons.
    destruct (verdict (iteration HandleRequest io pv)).
    + cbv zeta. rewrite IH, verdict_mk.
      destruct (verdict (run HandleRequest ios1
                             (validator (iteration HandleRequest io pv)))) eqn:V.
      * rewrite V. reflexivity.
      * cbv zeta. rewrite !verdict_mk, !validator_mk, !events_mk, app_assoc.
        reflexivity.
    + rewrite verdict_mk. reflexivity.
Qed.

Lemma iteration_responses io pv :
  handledResponses (events (iteration HandleRequest io pv)) =
  writtenResponses (events (iteration HandleRequest io pv)).
Proof.
  unfold iteration, events. destruct io as [msg rerr werr]; simpl.
  destruct (HandleRequest msg pv) as [[resp err] pv']; simpl.
  destruct rerr as [[| re] |]; simpl; try reflexivity;
    destruct err as [[| | |] |]; destruct werr; reflexivity.
Qed.


Lemma iteration_same_reading io1 io2 pv :
  reading io1 = reading io2 ->
  verdict (iteration HandleRequest io1 pv) =
    verdict (iteration HandleRequest io2 pv) /\
  validator (iteration HandleRequest io1 pv) =
    validator (iteration HandleRequest io2 pv) /\
  handlerCalls (events (iteration HandleRequest io1 pv)) =
    handlerCalls (events (iteration HandleRequest io2 pv)).
Proof.
  destruct io1 as [m1 r1 w1], io2 as [m2 r2 w2]. unfold reading; simpl.
  intros E. injection E as <- <-.
  unfold iteration, verdict, validator, events; simpl.
  destruct (HandleRequest m1 pv) as [[resp err] pv']; simpl.
  destruct r1 as [[| re] |]; simpl; auto;
    destruct err as [[| | |] |]; destruct w1, w2; simpl; auto.
Qed.

(** X16.  What the writer reports changes nothing but the log: two runs
    whose iterations read the same, whatever their writes return, give the
    same verdict, leave the same validator and make the same calls of
    [HandleRequest]. *)
Theorem run_ignores_write_errors (ios1 ios2 : list (IterIO Message)) :
  forall pv : SCFilePV,
  map reading ios1 = map reading ios2 ->
  verdict (run HandleRequest ios1 pv) = verdict (run HandleRequest ios2 pv) /\
  validator (run HandleRequest ios1 pv) = validator (run HandleRequest ios2 pv) /\
  handlerCalls (events (run HandleRequest ios1 pv)) =
    handlerCalls (events (run HandleRequest ios2 pv)).
Proof.
  revert ios2. induction ios1 as [| io1 ios1 IH]; intros [| io2 ios2] pv E;
    try discriminate E; [repeat split |].
  simpl in E.
  assert (E1 : reading io1 = reading io2) by congruence.
  assert (E2 : map reading ios1 = map reading ios2) by congruence.
  rewrite !run_cons.
  destruct (iteration_same_reading io1 io2 pv E1) as (V & P & C).
  rewrite <- V, <- P.
  destruct (verdict (iteration HandleRequest io1 pv)).
  - cbv zeta. rewrite !verdict_mk, !validator_mk, !events_mk.
    destruct (IH ios2 (validator (iteration HandleRequest io1 pv)) E2)
      as (V' & P' & C').
    unfold handlerCalls in *. rewrite !filter_app, C, C'. auto.
  - rewrite !verdict_mk, !validator_mk, !events_mk. auto.
Qed.

Lemma iteration_not_EOF io pv :
  isEOFRead io = false ->
  filter (fun e => negb (isEOFEvent e)) (events (iteration HandleRequest io pv)) =
  events (iteration HandleRequest io pv).
Proof.
  unfold isEOFRead, iteration, events. destruct io as [msg rerr werr]; simpl.
  destruct (HandleRequest msg pv) as [[resp err] pv']; simpl.
  destruct rerr as [[| re] |]; simpl; try discriminate; intros _;
    destruct err as [[| | |] |]; destruct werr; reflexivity.
Qed.

(** X17.  A read that ends in [io.EOF] is an iteration without effect:
    leaving those iterations out gives the same verdict, the same validator
    and the same trace but for the [io.EOF] reads themselves; the handler is
    not called and nothing is written for them. *)
Theorem run_skips_EOF_reads (ios : list (IterIO Message)) : forall pv : SCFilePV,
  let live := filter (fun io => negb (isEOFRead io)) ios in
  verdict (run HandleRequest live pv) = verdict (run HandleRequest ios pv) /\
  validator (run HandleRequest live pv) = validator (run HandleRequest ios pv) /\
  events (run HandleRequest live pv) =
    filter (fun e => negb (isEOFEvent e)) (events (run HandleRequest ios pv)).
Proof.
  induction ios as [| io ios IH]; intros pv; [repeat split |].
  cbv zeta.
  set (f := fun io : IterIO Message => negb (isEOFRead io)) in *.
  destruct (isEOFRead io) eqn:E.
  - replace (filter f (io :: ios)) with (filter f ios)
      by (simpl; unfold f at 2; rewrite E; reflexivity).
    assert (Hio : rd_err io = Some EOF).
    { unfold isEOFRead in E. destruct (rd_err io) as [[|] |]; congruence. }
    rewrite (run_cons HandleRequest io ios pv).
    rewrite (iteration_EOF HandleRequest io pv Hio).
    rewrite verdict_mk. cbv zeta.
    rewrite ?verdict_mk, ?validator_mk, ?events_mk.
    destruct (IH pv) as (V & P & T).
    rewrite filter_app. cbn [filter isEOFEvent negb app]. auto.
  - replace (filter f (io :: ios)) with (io :: filter f ios)
      by (simpl; unfold f at 2; rewrite E; reflexivity).
    rewrite !run_cons.
    destruct (verdict (iteration HandleRequest io pv)).
    + cbv zeta. rewrite !verdict_mk, !validator_mk, !events_mk.
      destruct (IH (validator (iteration HandleRequest io pv))) as (V & P & T).
      rewrite filter_app, (iteration_not_EOF io pv E), T. auto.
    + rewrite !verdict_mk, !validator_mk, !events_mk.
      rewrite (iteration_not_EOF io pv E). auto.
Qed.

End MessageLoopMore.

Lemma run_ignores_write_errors_witness :
  let ios1 := [mkIterIO 7%nat None None;
               mkIterIO 13%nat None (Some (IOFailure "broken pipe"))] in
  let ios2 := [mkIterIO 7%nat None (Some (IOFailure "broken pipe"));
               mkIterIO 13%nat None None] in
  verdict (run sampleHandler ios1 samplePV) =
    verdict (run sampleHandler ios2 samplePV) /\
  validator (run sampleHandler ios1 samplePV) =
    validator (run sampleHandler ios2 samplePV) /\
  handlerCalls (events (run sampleHandler ios1 samplePV)) =
    handlerCalls (events (run sampleHandler ios2 samplePV)).
Proof.
  apply (run_ignores_write_errors sampleHandler
           [mkIterIO 7%nat None None;
            mkIterIO 13%nat None (Some (IOFailure "broken pipe"))]
           [mkIterIO 7%nat None (Some (IOFailure "broken pipe"));
            mkIterIO 13%nat None None]
           samplePV).
  reflexivity.
Defined.

(** * The paths of the validator's files *)

Lemma length_append (a b : string) :
  String.length (a ++ b) = (String.length a + String.length b)%nat.
Proof. induction a as [| c a IH]; simpl; [reflexivity | now rewrite IH]. Qed.

Lemma append_inj_l (x : string) : forall a b : string,
  (a ++ x)%string = (b ++ x)%string -> a = b.
Proof.
  induction a as [| c a IH]; intros [| d b] E; simpl in E.
  - reflexivity.
  - apply (f_equal String.length) in E. simpl in E. rewrite length_append in E. lia.
  - apply (f_equal String.length) in E. simpl in E. rewrite length_append in E. lia.
  - injection E as -> E. f_equal. now apply IH.
Qed.

(** Of two strings with a common extension, the shorter tail is a tail of
    the longer. *)
Lemma append_suffix (a : string) : forall b x y : string,
  (a ++ x)%string = (b ++ y)%string ->
  (String.length x <= String.length y)%nat ->
  exists c, y = (c ++ x)%string.
Proof.
  induction a as [| c a IH]; intros b x y E L.
  - simpl in E. subst x. rewrite length_append in L.
    destruct b; [exists EmptyString; reflexivity | simpl in L; lia].
  - destruct b as [| d b]; simpl in E.
    + exists (String c a). now rewrite <- E.
    + injection E as _ E. now apply (IH b).
Qed.

(** X18.  [KeyFilePath] and [StateFilePath] put their file right under the
    directory they are given, the empty one included; directories that differ
    give paths that differ, and no key file path is a state file path, for
    whichever two directories. *)
Theorem validator_file_paths_are_distinct :
  (forall d, prefix d (KeyFilePath d) = true /\
             prefix d (StateFilePath d) = true /\
             String.length (KeyFilePath d) = (String.length d + 24)%nat /\
             String.length (StateFilePath d) = (String.length d + 26)%nat) /\
  KeyFilePath "" = "/priv_validator_key.json"%string /\
  (forall d1 d2, KeyFilePath d1 = KeyFilePath d2 -> d1 = d2) /\
  (forall d1 d2, StateFilePath d1 = StateFilePath d2 -> d1 = d2) /\
  (forall d1 d2, KeyFilePath d1 <> StateFilePath d2).
Proof.
  assert (P : forall d x, prefix d (d ++ x) = true).
  { induction d as [| c d IH]; intros x; simpl.
    - destruct x; reflexivity.
    - destruct (Ascii.ascii_dec c c); [apply IH | congruence]. }
  repeat split; unfold KeyFilePath, StateFilePath.
  - apply P.
  - apply P.
  - rewrite length_append. reflexivity.
  - rewrite length_append. reflexivity.
  - intros d1 d2. apply append_inj_l.
  - intros d1 d2. apply append_inj_l.
  - intros d1 d2 E. unfold KeyFile, StateFile in E.
    destruct (append_suffix _ _ _ _ E) as (c & Hc); [simpl; lia |].
    pose proof (f_equal String.length Hc) as Hl.
    rewrite length_append in Hl.
    destruct c as [| c1 [| c2 [| c3 c]]]; simpl in Hl; try lia;
      try (rewrite length_append in Hl; simpl in Hl; lia).
    simpl in Hc. discriminate Hc.
Qed.
